(** * SafaOS early console: the VGA text terminal and the hexadecimal encoder

    A shallow embedding of [src/kernel.c].  C objects are modelled as follows.

    - [char] buffers are lists of 8-bit characters ([ascii]); a load or a
      store outside the object has no defined result and is [None];
    - [uint8_t], [uint16_t], [uint32_t] and [size_t] values are integers [Z];
      where the C arithmetic can leave the range of its type the reduction
      modulo [2 ^ width] is written out;
    - the three globals [terminal_buffer], [terminal_row], [terminal_col] and
      the memory behind the frame-buffer pointer form the record [terminal],
      which every console function takes and returns;
    - [while] and [for] loops are recursive functions whose termination measure
      is the distance of the loop counter to its bound;
    - a function whose C execution would be undefined returns [None]. *)

From Stdlib Require Import ZArith Ascii String Lia.
From stdpp Require Import base option list gmap.
From Equations Require Import Equations.

Local Open Scope Z_scope.

(** ** Characters and character buffers *)

Definition NUL : ascii := "000"%char.

(** Code of a character as an [unsigned char]. *)
Definition char_code (c : ascii) : Z := Z.of_N (N_of_ascii c).

(** [str[i]] as an rvalue. *)
Definition load_char (str : list ascii) (i : Z) : option ascii :=
  if decide (0 ≤ i) then str !! Z.to_nat i else None.

(** [str[i] = c]. *)
Definition store_char (str : list ascii) (i : Z) (c : ascii) : option (list ascii) :=
  if decide (0 ≤ i < Z.of_nat (length str)) then Some (<[Z.to_nat i := c]> str) else None.

(** ** decToHexStr *)

(** [char hexDigits[] = "0123456789ABCDEF"]: sixteen digits and the terminator. *)
Definition hexDigits : list ascii :=
  list_ascii_of_string "0123456789ABCDEF" ++ [NUL].

(** [while (num > 0 && i >= 0) { str[i--] = hexDigits[num % 16]; num /= 16; }]
    [num] is a [uint32_t] that only shrinks and [i] an [int] in [-1 .. 7]:
    neither leaves its range. *)
Equations? digits_loop (num i : Z) (str : list ascii) : option (Z * Z * list ascii)
  by wf (Z.to_nat (i + 1)) lt :=
  digits_loop num i str with decide (0 < num ∧ 0 ≤ i) => {
    | left _ :=
        d ← load_char hexDigits (num mod 16);
        str' ← store_char str i d;
        digits_loop (num / 16) (i - 1) str';
    | right _ := Some (num, i, str) }.
Proof. lia. Qed.

(** [while (i >= 0) { str[i--] = '0'; }] *)
Equations? padding_loop (i : Z) (str : list ascii) : option (Z * list ascii)
  by wf (Z.to_nat (i + 1)) lt :=
  padding_loop i str with decide (0 ≤ i) => {
    | left _ :=
        str' ← store_char str i "0"%char;
        padding_loop (i - 1) str';
    | right _ := Some (i, str) }.
Proof. lia. Qed.

(** Lines 8-23 of [decToHexStr]: everything before the prefix is stored. *)
Definition decToHexStr_digits (num : Z) (str : list ascii) : option (list ascii) :=
  let i := 7 in
  str ← store_char str 8 NUL;
  '(i, str) ← (if decide (num = 0)
               then str' ← store_char str i "0"%char; Some (i - 1, str')
               else Some (i, str));
  '(_, i, str) ← digits_loop num i str;
  '(_, str) ← padding_loop i str;
  Some str.

(** [void decToHexStr(uint32_t num, char str[11])]; the result is the
    caller's buffer after the call. *)
Definition decToHexStr (num : Z) (str : list ascii) : option (list ascii) :=
  str ← decToHexStr_digits num str;
  str ← store_char str 0 "0"%char;
  store_char str 1 "x"%char.

(** ** Counting loops *)

(** [for (size_t i = from; i < bound; i++) body].  In every use [bound] is a
    [size_t] value, so the counter stays in range and its increment never
    wraps. *)
Equations? for_loop {St : Type} (i bound : Z) (body : Z → St → St) (s : St) : St
  by wf (Z.to_nat (bound - i)) lt :=
  for_loop i bound body s with decide (i < bound) => {
    | left _ := for_loop (i + 1) bound body (body i s);
    | right _ := s }.
Proof. lia. Qed.

(** ** strlen *)

(** [while (str[len]) len++;]  [str] is the object the pointer points into,
    from the pointed-to character to its end.  [len] stays below the size of
    that object, which fits [size_t], so the increment never wraps. *)
Equations? strlen_loop (str : list ascii) (len : Z) : option Z
  by wf (length str - Z.to_nat len)%nat lt :=
  strlen_loop str len with Logic.inspect (load_char str len) => {
    | exist _ (Some c) Hc :=
        if decide (c = NUL) then Some len else strlen_loop str (len + 1);
    | exist _ None _ := None }.
Proof.
  unfold load_char in Hc. case_decide; [|done].
  apply lookup_lt_Some in Hc. lia.
Qed.

Definition strlen (str : list ascii) : option Z := strlen_loop str 0.

(** The text a [char*] denotes: the characters before the terminator. *)
Definition c_string (str : list ascii) : option string :=
  len ← strlen str;
  Some (string_of_list_ascii (take (Z.to_nat len) str)).

(** ** VGA colours and cells *)

Inductive VGA_COLOR : Set :=
| VGA_COLOR_BLACK
| VGA_COLOR_RED
| VGA_COLOR_YELLOW
| VGA_COLOR_WHITE.

(** The enumeration constants. *)
Definition VGA_COLOR_value (c : VGA_COLOR) : Z :=
  match c with
  | VGA_COLOR_BLACK => 0
  | VGA_COLOR_RED => 4
  | VGA_COLOR_YELLOW => 14
  | VGA_COLOR_WHITE => 15
  end.

Definition VGA_WIDTH : Z := 80.
Definition VGA_HEIGHT : Z := 25.

(** [return fg | bg << 4;] converted to the [uint8_t] return type.  The
    arguments are the integer values of the two [VGA_COLOR] operands. *)
Definition vga_entry_color (fg bg : Z) : Z :=
  Z.lor fg (Z.shiftl bg 4) mod 2 ^ 8.

(** [return (uint16_t) uc | (uint16_t) color << 8;] converted to [uint16_t];
    [uc] is an [unsigned char] and [color] a [uint8_t]. *)
Definition vga_entry (uc color : Z) : Z :=
  Z.lor (uc mod 2 ^ 16) (Z.shiftl (color mod 2 ^ 16) 8) mod 2 ^ 16.

(** ** The terminal *)

(** The globals of the terminal and the memory they point into.  [memory]
    maps the address of a 16-bit cell to its content; the content of an
    address without an entry is not known. *)
Record terminal : Type := Terminal {
  terminal_buffer : Z;
  terminal_row : Z;
  terminal_col : Z;
  memory : gmap Z Z
}.

(** [terminal_buffer[index] = entry;]  The frame buffer is not an object the
    C implementation knows about: the store goes to whatever address the
    pointer arithmetic yields, inside the 80 x 25 grid or not. *)
Definition store_cell (t : terminal) (index entry : Z) : terminal :=
  Terminal (terminal_buffer t) (terminal_row t) (terminal_col t)
           (<[terminal_buffer t + 2 * index := entry]> (memory t)).

Section Terminal.
(** Width of [size_t] on the target, which the sources leave to the
    compiler. *)
Variable size_bits : Z.

(** Conversion to [size_t]. *)
Definition size_wrap (z : Z) : Z := z mod 2 ^ size_bits.

(** The pointer is bound to the address 0xB8000 (753664), then the two
    nested loops run. *)
Definition initTerminal (t : terminal) : terminal :=
  let t := Terminal 753664 (terminal_row t) (terminal_col t) (memory t) in
  for_loop 0 VGA_HEIGHT (λ y t,
    for_loop 0 VGA_WIDTH (λ x t,
      let index := size_wrap (size_wrap (y * VGA_WIDTH) + x) in
      store_cell t index
        (vga_entry (char_code " ")
           (vga_entry_color (VGA_COLOR_value VGA_COLOR_WHITE)
                            (VGA_COLOR_value VGA_COLOR_BLACK)))) t) t.

(** The two branches of the body of the loop of [terminalPut]. *)
Definition terminal_newline (t : terminal) : terminal :=
  Terminal (terminal_buffer t) (size_wrap (terminal_row t + 1)) 0 (memory t).

Definition terminal_putchar (c : ascii) (color : Z) (t : terminal) : terminal :=
  let t' :=
    store_cell t
      (size_wrap (terminal_col t + size_wrap (terminal_row t * VGA_WIDTH)))
      (vga_entry (char_code c) color) in
  Terminal (terminal_buffer t') (terminal_row t')
           (size_wrap (terminal_col t' + 1)) (memory t').

(** One iteration of the loop of [terminalPut] on the character [c];
    [continue] ends the iteration. *)
Definition terminal_step (color : Z) (t : terminal) (c : ascii) : terminal :=
  if decide (c = "010"%char)
  then terminal_newline t
  else terminal_putchar c color t.

(** The body of the loop at index [i]. *)
Definition terminalPut_body (str : list ascii) (color i : Z) (t : terminal)
  : option terminal :=
  c ← load_char str i;
  Some (terminal_step color t c).

(** [void terminalPut(char* str, uint8_t color)]: [str] is the object the
    pointer points into and [color] a value in [0 .. 255].  The state of the
    loop is [None] from the iteration on in which a load left the object. *)
Definition terminalPut (str : list ascii) (color : Z) (t : terminal)
  : option terminal :=
  len ← strlen str;
  for_loop 0 len (λ i r, t ← r; terminalPut_body str color i t) (Some t).

Definition write (str : list ascii) (t : terminal) : option terminal :=
  terminalPut str
    (vga_entry_color (VGA_COLOR_value VGA_COLOR_WHITE)
                     (VGA_COLOR_value VGA_COLOR_BLACK)) t.

Definition kerr (err : list ascii) (t : terminal) : option terminal :=
  terminalPut err
    (vga_entry_color (VGA_COLOR_value VGA_COLOR_RED)
                     (VGA_COLOR_value VGA_COLOR_BLACK)) t.

Definition kwarn (warn : list ascii) (t : terminal) : option terminal :=
  terminalPut warn
    (vga_entry_color (VGA_COLOR_value VGA_COLOR_YELLOW)
                     (VGA_COLOR_value VGA_COLOR_BLACK)) t.

(** [write_hex]: [stack] is the indeterminate content of the local
    [char str[11]] on entry. *)
Definition write_hex (hex : Z) (stack : list ascii) (t : terminal)
  : option terminal :=
  str ← decToHexStr hex stack;
  write str t.

(** The stores of a call of [terminalPut] on the text [text] from the cursor
    [(row, col)], in program order: the index of each cell stored to and
    the character stored.  The attribute plays no part in it. *)
Fixpoint cells_written (text : list ascii) (row col : Z) : list (Z * ascii) :=
  match text with
  | [] => []
  | c :: text' =>
      if decide (c = "010"%char)
      then cells_written text' (size_wrap (row + 1)) 0
      else (size_wrap (col + size_wrap (row * VGA_WIDTH)), c)
             :: cells_written text' row (size_wrap (col + 1))
  end.

(** The cursor such a call leaves. *)
Fixpoint cursor_after (text : list ascii) (row col : Z) : Z * Z :=
  match text with
  | [] => (row, col)
  | c :: text' =>
      if decide (c = "010"%char)
      then cursor_after text' (size_wrap (row + 1)) 0
      else cursor_after text' row (size_wrap (col + 1))
  end.
End Terminal.

(** Memory after the stores [cells] were performed with the attribute
    [color] through the pointer [base]. *)
Definition paint (base color : Z) (m : gmap Z Z) (cells : list (Z * ascii))
  : gmap Z Z :=
  foldl (λ m cell, <[base + 2 * cell.1 := vga_entry (char_code cell.2) color]> m)
        m cells.

(** ** Reference notions used in the statements *)

(** The character of the hexadecimal digit [d], upper case. *)
Definition spec_hex_digit (d : Z) : ascii :=
  ascii_of_N (Z.to_N (if decide (d < 10) then 48 + d else 55 + d)).

(** The [digits] lowest hexadecimal digits of [v], most significant first,
    padded with zeros. *)
Fixpoint spec_hex (digits : nat) (v : Z) : list ascii :=
  match digits with
  | O => []
  | S n => spec_hex n (v / 16) ++ [spec_hex_digit (v mod 16)]
  end.

(** Reading a digit character back. *)
Definition hex_digit_value (c : ascii) : option Z :=
  let n := char_code c in
  if decide (48 ≤ n ≤ 57) then Some (n - 48)
  else if decide (65 ≤ n ≤ 70) then Some (n - 55)
  else None.

(** The number a sequence of hexadecimal digit characters denotes. *)
Definition hex_value (s : list ascii) : option Z :=
  foldl (λ acc c, a ← acc; d ← hex_digit_value c; Some (16 * a + d)) (Some 0) s.

Definition is_hex_digit (c : ascii) : Prop :=
  c ∈ list_ascii_of_string "0123456789ABCDEF".

(** Address of the cell of row [y] and column [x] of the grid that starts at
    [base]: the layout [index = y * VGA_WIDTH + x] of [initTerminal], two
    bytes a cell. *)
Definition cell_address (base y x : Z) : Z := base + 2 * (y * VGA_WIDTH + x).

(** The globals as the loader leaves them: the pointer null, the cursor at
    the origin. *)
Definition boot_terminal (m : gmap Z Z) : terminal := Terminal 0 0 0 m.

(** ** The boot sequence *)

(** A string literal: the object holds its characters and the terminator. *)
Definition literal (s : string) : list ascii := list_ascii_of_string s ++ [NUL].

(** The one-character string of the escape [\n]. *)
Definition LF : string := String "010" EmptyString.

Section Kernel.
Variable size_bits : Z.

(** [printSegmentRegisters] is declared in [GDT.h] and defined outside these
    sources.  It takes no argument and returns nothing: it is any function
    of the terminal state, and [None] when its execution is undefined. *)
Variable printSegmentRegisters : terminal → option terminal.

Definition initKernel (t : terminal) : option terminal :=
  let t := initTerminal size_bits t in
  t ← write size_bits (literal ("registers: " ++ LF)) t;
  printSegmentRegisters t.

Definition kernelMain (t : terminal) : option terminal :=
  t ← initKernel t;
  t ← write size_bits (literal ("Hello, world!" ++ LF)) t;
  t ← write size_bits (literal "some more text") t;
  t ← write size_bits (literal (", and more..." ++ LF)) t;
  t ← kerr size_bits (literal ("NO MORE INFO" ++ LF)) t;
  kwarn size_bits (literal ("WARNING" ++ LF)) t.
End Kernel.

(** ** mem.h *)

Definition MALLOC_SIZE_ALIGN : Z := 16.

(** The macro [align_up(x, alignment)], which expands to
    [(x + alignment - 1) & ~(alignment - 1)], at operands of type [size_t]
    (an [int] alignment is converted to [size_t] by the [&]). *)
Definition align_up (size_bits x alignment : Z) : Z :=
  Z.land (size_wrap size_bits (x + alignment - 1))
         (size_wrap size_bits (Z.lnot (alignment - 1))).

(** * Properties *)

(** ** Loops unfolded once *)

Lemma digits_loop_eq num i str :
  digits_loop num i str =
  if decide (0 < num ∧ 0 ≤ i) then
    d ← load_char hexDigits (num mod 16);
    str' ← store_char str i d;
    digits_loop (num / 16) (i - 1) str'
  else Some (num, i, str).
Proof. simp digits_loop. destruct (decide (0 < num ∧ 0 ≤ i)); reflexivity. Qed.

Lemma padding_loop_eq i str :
  padding_loop i str =
  if decide (0 ≤ i) then
    str' ← store_char str i "0"%char; padding_loop (i - 1) str'
  else Some (i, str).
Proof. simp padding_loop. destruct (decide (0 ≤ i)); reflexivity. Qed.

Lemma strlen_loop_eq str len :
  strlen_loop str len =
  match load_char str len with
  | Some c => if decide (c = NUL) then Some len else strlen_loop str (len + 1)
  | None => None
  end.
Proof.
  rewrite strlen_loop_equation_1.
  destruct (Logic.inspect (load_char str len)) as [[c|] Hc];
    simpl; rewrite Hc; reflexivity.
Qed.

Lemma for_loop_eq {St} i bound body (s : St) :
  for_loop i bound body s =
  if decide (i < bound) then for_loop (i + 1) bound body (body i s) else s.
Proof.
  rewrite for_loop_equation_1 at 1.
  destruct (decide (i < bound)); reflexivity.
Qed.

(** A counting loop is a left fold over the values of its counter. *)
Lemma for_loop_foldl {St} (n : nat) i body (s : St) :
  for_loop i (i + Z.of_nat n) body s = foldl (λ s j, body j s) s (seqZ i (Z.of_nat n)).
Proof.
  revert i s. induction n as [|n IH]; intros i s; rewrite for_loop_eq.
  - rewrite decide_False by lia. reflexivity.
  - rewrite decide_True by lia.
    replace (i + Z.of_nat (S n)) with ((i + 1) + Z.of_nat n) by lia.
    rewrite IH, (seqZ_cons i) by lia. simpl.
    do 3 f_equal; lia.
Qed.

Lemma for_loop_empty {St} i bound body (s : St) :
  bound ≤ i → for_loop i bound body s = s.
Proof. intros. rewrite for_loop_eq, decide_False by lia. reflexivity. Qed.

(** ** Character buffers *)

Lemma store_char_Some str i c :
  0 ≤ i < Z.of_nat (length str) →
  store_char str i c = Some (<[Z.to_nat i := c]> str).
Proof. intros. unfold store_char. rewrite decide_True by lia. reflexivity. Qed.

Lemma load_char_nat (str : list ascii) (n : nat) :
  load_char str (Z.of_nat n) = str !! n.
Proof. unfold load_char. rewrite decide_True by lia. by rewrite Nat2Z.id. Qed.

(** Storing at position [k] and looking at the buffer from [k] on. *)
Lemma drop_insert_here (str : list ascii) (k : nat) c :
  (k < length str)%nat → drop k (<[k := c]> str) = c :: drop (S k) str.
Proof.
  intros Hk. destruct (lookup_lt_is_Some_2 str k Hk) as [x Hx].
  rewrite drop_insert_ge by lia. rewrite (drop_S _ _ _ Hx), Nat.sub_diag.
  reflexivity.
Qed.

(** ** The digits of the encoder *)

Lemma hexDigits_lookup d :
  0 ≤ d < 16 → load_char hexDigits d = Some (spec_hex_digit d).
Proof.
  intros Hd.
  assert (Hcases : Forall (λ k, load_char hexDigits k = Some (spec_hex_digit k))
                          (seqZ 0 16)).
  { vm_compute seqZ. repeat constructor. }
  rewrite Forall_forall in Hcases. apply Hcases, elem_of_seqZ. lia.
Qed.

Lemma hex_digit_value_spec d :
  0 ≤ d < 16 → hex_digit_value (spec_hex_digit d) = Some d.
Proof.
  intros Hd.
  assert (Hcases : Forall (λ k, hex_digit_value (spec_hex_digit k) = Some k)
                          (seqZ 0 16)).
  { vm_compute seqZ. repeat constructor. }
  rewrite Forall_forall in Hcases. apply Hcases, elem_of_seqZ. lia.
Qed.

Lemma spec_hex_digit_is_hex d : 0 ≤ d < 16 → is_hex_digit (spec_hex_digit d).
Proof.
  intros Hd.
  assert (Hcases : Forall (λ k, is_hex_digit (spec_hex_digit k)) (seqZ 0 16)).
  { vm_compute seqZ. unfold is_hex_digit. repeat constructor; set_solver. }
  rewrite Forall_forall in Hcases. apply Hcases, elem_of_seqZ. lia.
Qed.

Lemma is_hex_digit_not_NUL c : is_hex_digit c → c ≠ NUL.
Proof.
  unfold is_hex_digit. intros Hc ->. simpl in Hc.
  repeat (apply elem_of_cons in Hc as [Hc|Hc]; [discriminate Hc|]).
  by apply elem_of_nil in Hc.
Qed.

Lemma length_spec_hex n v : length (spec_hex n v) = n.
Proof.
  revert v. induction n as [|n IH]; intros v; simpl; [done|].
  rewrite length_app, IH. simpl. lia.
Qed.

Lemma spec_hex_all_hex n v : Forall is_hex_digit (spec_hex n v).
Proof.
  revert v. induction n as [|n IH]; intros v; simpl; [constructor|].
  apply Forall_app. split; [apply IH|].
  apply Forall_singleton, spec_hex_digit_is_hex, Z.mod_pos_bound. lia.
Qed.

Lemma spec_hex_zero n : spec_hex n 0 = replicate n "0"%char.
Proof.
  induction n as [|n IH]; simpl; [done|].
  rewrite Z.div_0_l, IH by lia. rewrite Zmod_0_l.
  change (spec_hex_digit 0) with "0"%char.
  by rewrite <- replicate_cons_app.
Qed.

(** Only the [n] lowest digits of the value matter. *)
Lemma spec_hex_mod n v : spec_hex n (v mod 16 ^ Z.of_nat n) = spec_hex n v.
Proof.
  revert v. induction n as [|n IH]; intros v; simpl spec_hex; [done|].
  rewrite Nat2Z.inj_succ, Z.pow_succ_r by lia.
  assert (0 < 16 ^ Z.of_nat n) by (apply Z.pow_pos_nonneg; lia).
  f_equal.
  - rewrite <- (IH (v / 16)). f_equal.
    rewrite Z.rem_mul_r by lia.
    rewrite (Z.mul_comm 16), Z.div_add by lia.
    rewrite (Z.div_small (v mod 16)); [lia|]. apply Z.mod_pos_bound. lia.
  - do 2 f_equal. rewrite Z.rem_mul_r by lia.
    rewrite (Z.mul_comm 16), Z.mod_add by lia. apply Z.mod_mod. lia.
Qed.

(** The most significant digit comes first. *)
Lemma spec_hex_S_front n v :
  spec_hex (S n) v = spec_hex_digit ((v / 16 ^ Z.of_nat n) mod 16) :: spec_hex n v.
Proof.
  revert v. induction n as [|n IH]; intros v.
  - simpl. by rewrite Z.div_1_r.
  - change (spec_hex (S (S n)) v)
      with (spec_hex (S n) (v / 16) ++ [spec_hex_digit (v mod 16)]).
    rewrite IH. simpl. do 3 f_equal.
    rewrite Nat2Z.inj_succ, Z.pow_succ_r by lia.
    rewrite Z.div_div by (try apply Z.pow_pos_nonneg; lia). reflexivity.
Qed.

(** Reading the digits back gives the value they were taken from. *)
Lemma hex_value_snoc s c :
  hex_value (s ++ [c]) = a ← hex_value s; d ← hex_digit_value c; Some (16 * a + d).
Proof. unfold hex_value. by rewrite foldl_app. Qed.

Lemma hex_value_spec_hex n v :
  0 ≤ v → hex_value (spec_hex n v) = Some (v mod 16 ^ Z.of_nat n).
Proof.
  revert v. induction n as [|n IH]; intros v Hv.
  - simpl. by rewrite Z.mod_1_r.
  - simpl spec_hex. rewrite hex_value_snoc, IH by (apply Z.div_pos; lia).
    simpl. rewrite hex_digit_value_spec by (apply Z.mod_pos_bound; lia).
    simpl. f_equal.
    rewrite Nat2Z.inj_succ, Z.pow_succ_r by lia.
    assert (0 < 16 ^ Z.of_nat n) by (apply Z.pow_pos_nonneg; lia).
    rewrite (Z.rem_mul_r v 16) by lia. lia.
Qed.

(** ** The loops of [decToHexStr] *)

(** From [i = n - 1] the padding loop zeroes the positions [0 .. n - 1] and
    stops at [i = -1]. *)
Lemma padding_loop_spec (n : nat) str :
  (n ≤ length str)%nat →
  padding_loop (Z.of_nat n - 1) str
  = Some (-1, replicate n "0"%char ++ drop n str).
Proof.
  revert str. induction n as [|n IH]; intros str Hn; rewrite padding_loop_eq.
  - rewrite decide_False by lia. by rewrite drop_0.
  - rewrite decide_True by lia. rewrite store_char_Some by lia. simpl.
    replace (Z.of_nat (S n) - 1 - 1) with (Z.of_nat n - 1) by lia.
    replace (Z.to_nat (Z.of_nat (S n) - 1)) with n by lia.
    rewrite IH by (rewrite length_insert; lia).
    rewrite drop_insert_here by lia.
    by rewrite (cons_middle "0"%char), app_assoc, <- replicate_cons_app.
Qed.

(** The digit loop followed by the padding loop: started at [i = n - 1] they
    leave the [n] lowest digits of [num] in the positions [0 .. n - 1]. *)
Lemma digits_then_padding (n : nat) num str :
  0 ≤ num → (n ≤ length str)%nat →
  ∃ num' i' str',
    digits_loop num (Z.of_nat n - 1) str = Some (num', i', str') ∧
    padding_loop i' str' = Some (-1, spec_hex n num ++ drop n str).
Proof.
  revert num str. induction n as [|n IH]; intros num str Hnum Hn.
  - exists num, (-1), str. rewrite digits_loop_eq, padding_loop_eq.
    rewrite !decide_False by lia. by rewrite drop_0.
  - rewrite digits_loop_eq. destruct (decide (0 < num ∧ 0 ≤ Z.of_nat (S n) - 1)).
    + rewrite hexDigits_lookup by (apply Z.mod_pos_bound; lia). simpl.
      rewrite store_char_Some by lia. simpl.
      replace (Z.of_nat (S n) - 1 - 1) with (Z.of_nat n - 1) by lia.
      replace (Z.to_nat (Z.of_nat (S n) - 1)) with n by lia.
      destruct (IH (num / 16) (<[n := spec_hex_digit (num mod 16)]> str))
        as (num' & i' & str' & Hloop & Hpad).
      { apply Z.div_pos; lia. }
      { rewrite length_insert. lia. }
      exists num', i', str'. split; [done|].
      rewrite Hpad, drop_insert_here by lia.
      by rewrite <- app_assoc.
    + assert (num = 0) as -> by lia.
      exists 0, (Z.of_nat (S n) - 1), str. split; [done|].
      rewrite padding_loop_spec by lia. by rewrite spec_hex_zero.
Qed.

(** Before the prefix is stored the buffer holds all eight digits of [num]
    and the terminator. *)
Lemma decToHexStr_digits_spec num str :
  0 ≤ num → (9 ≤ length str)%nat →
  decToHexStr_digits num str = Some (spec_hex 8 num ++ NUL :: drop 9 str).
Proof.
  intros Hnum Hlen. unfold decToHexStr_digits.
  rewrite store_char_Some by lia. simpl.
  set (str1 := <[Z.to_nat 8 := NUL]> str).
  assert (Hlen1 : length str1 = length str) by apply length_insert.
  assert (Hdrop1 : drop 8 str1 = NUL :: drop 9 str).
  { subst str1. by rewrite (drop_insert_here str 8) by lia. }
  destruct (decide (num = 0)) as [->|Hnz].
  - rewrite store_char_Some by lia. simpl.
    set (str2 := <[Z.to_nat 7 := "0"%char]> str1).
    rewrite digits_loop_eq, decide_False by lia. simpl.
    rewrite (padding_loop_spec 7) by (subst str2; rewrite length_insert; lia).
    simpl. f_equal. subst str2.
    rewrite (drop_insert_here str1 7) by lia.
    rewrite Hdrop1. reflexivity.
  - simpl.
    destruct (digits_then_padding 8 num str1) as (num' & i' & str' & Hloop & Hpad);
      [lia | lia |].
    change (Z.of_nat 8 - 1) with 7 in Hloop. rewrite Hloop. simpl.
    rewrite Hpad. simpl. by rewrite Hdrop1.
Qed.

(** The buffer after the call.  Positions 9 and up keep what they held. *)
Lemma decToHexStr_spec num str :
  0 ≤ num → (9 ≤ length str)%nat →
  decToHexStr num str
  = Some ("0"%char :: "x"%char :: spec_hex 6 num ++ NUL :: drop 9 str).
Proof.
  intros Hnum Hlen. unfold decToHexStr.
  rewrite decToHexStr_digits_spec by done.
  rewrite (spec_hex_S_front 7), (spec_hex_S_front 6).
  cbn [mbind option_bind].
  rewrite store_char_Some by (cbn [length app]; lia).
  cbn [mbind option_bind].
  rewrite store_char_Some by (rewrite length_insert; cbn [length app]; lia).
  reflexivity.
Qed.

(** ** strlen *)

Lemma strlen_loop_spec (pre s rest : list ascii) :
  NUL ∉ s →
  strlen_loop (pre ++ s ++ NUL :: rest) (Z.of_nat (length pre))
  = Some (Z.of_nat (length pre + length s)).
Proof.
  revert pre. induction s as [|c s IH]; intros pre Hs;
    rewrite strlen_loop_eq; cbn [app].
  - rewrite load_char_nat, list_lookup_middle by done.
    rewrite decide_True by done. simpl. do 2 f_equal. lia.
  - rewrite load_char_nat, list_lookup_middle by done.
    rewrite decide_False by set_solver.
    specialize (IH (pre ++ [c])). rewrite <- !app_assoc, length_app in IH.
    cbn [app length] in IH.
    replace (Z.of_nat (length pre) + 1) with (Z.of_nat (length pre + 1)) by lia.
    rewrite IH by set_solver.
    do 2 f_equal. cbn [length]. lia.
Qed.

Lemma strlen_spec (s rest : list ascii) :
  NUL ∉ s → strlen (s ++ NUL :: rest) = Some (Z.of_nat (length s)).
Proof. intros Hs. apply (strlen_loop_spec [] s rest Hs). Qed.

(** A buffer without a terminator has no length: the scan leaves the
    object. *)
Lemma strlen_loop_None (str : list ascii) (n : nat) :
  NUL ∉ drop n str → strlen_loop str (Z.of_nat n) = None.
Proof.
  remember (length str - n)%nat as k eqn:Hk. revert n Hk.
  induction k as [|k IH]; intros n Hk Hnul; rewrite strlen_loop_eq, load_char_nat.
  - by rewrite lookup_ge_None_2 by lia.
  - destruct (lookup_lt_is_Some_2 str n) as [c Hc]; [lia|]. rewrite Hc.
    rewrite (drop_S _ _ _ Hc) in Hnul.
    rewrite decide_False by set_solver.
    replace (Z.of_nat n + 1) with (Z.of_nat (S n)) by lia.
    apply IH; [lia | set_solver].
Qed.

Lemma length_string_of_list_ascii (l : list ascii) :
  String.length (string_of_list_ascii l) = length l.
Proof. induction l as [|c l IH]; [done|]. cbn. by rewrite IH. Qed.

Lemma c_string_spec (s rest : list ascii) :
  NUL ∉ s → c_string (s ++ NUL :: rest) = Some (string_of_list_ascii s).
Proof.
  intros Hs. unfold c_string. rewrite strlen_spec by done. simpl.
  by rewrite Nat2Z.id, take_app_length.
Qed.

(** ** The result of [decToHexStr] as a string *)

Lemma spec_hex_app (m n : nat) v :
  spec_hex (m + n) v = spec_hex m (v / 16 ^ Z.of_nat n) ++ spec_hex n v.
Proof.
  induction m as [|m IH]; [done|].
  change (S m + n)%nat with (S (m + n)).
  rewrite !spec_hex_S_front, IH. cbn [app]. do 3 f_equal.
  rewrite Nat2Z.inj_add, Z.pow_add_r, Z.div_div
    by (try apply Z.pow_pos_nonneg; lia).
  f_equal. lia.
Qed.

Lemma decToHexStr_c_string num str :
  0 ≤ num → (9 ≤ length str)%nat →
  decToHexStr num str ≫= c_string
  = Some (String "0" (String "x" (string_of_list_ascii (spec_hex 6 num)))).
Proof.
  intros Hnum Hlen. rewrite decToHexStr_spec by done. cbn [mbind option_bind].
  pose proof (c_string_spec ("0"%char :: "x"%char :: spec_hex 6 num)
                (drop 9 str)) as Hc.
  cbn [app] in Hc. rewrite Hc; [done|].
  intros Hin. apply elem_of_cons in Hin as [Hin|Hin]; [discriminate Hin|].
  apply elem_of_cons in Hin as [Hin|Hin]; [discriminate Hin|].
  pose proof (spec_hex_all_hex 6 num) as Hhex.
  rewrite Forall_forall in Hhex. by apply Hhex, is_hex_digit_not_NUL in Hin.
Qed.

(** C2: for every 32-bit value [v] below 0x01000000 the encoder returns
    the string "0x" followed by the numerically correct zero-padded six-digit
    hexadecimal representation of [v]: the six digits read back as [v].  In
    particular the results for 0 and 0xFF are "0x000000" and "0x0000FF". *)
Theorem C2_decToHexStr_below_threshold (v : Z) (str : list ascii) :
  0 ≤ v < 16777216 → length str = 11%nat →
  decToHexStr v str ≫= c_string
  = Some ("0x" ++ string_of_list_ascii (spec_hex 6 v))%string
  ∧ length (spec_hex 6 v) = 6%nat
  ∧ hex_value (spec_hex 6 v) = Some v
  ∧ (v = 0 → decToHexStr v str ≫= c_string = Some "0x000000"%string)
  ∧ (v = 255 → decToHexStr v str ≫= c_string = Some "0x0000FF"%string).
Proof.
  intros Hv Hlen.
  assert (Hout := decToHexStr_c_string v str ltac:(lia) ltac:(lia)).
  split_and!.
  - exact Hout.
  - apply length_spec_hex.
  - rewrite hex_value_spec_hex by lia. f_equal. apply Z.mod_small.
    change (16 ^ Z.of_nat 6) with 16777216. lia.
  - intros ->. exact Hout.
  - intros ->. exact Hout.
Qed.

Lemma C2_decToHexStr_below_threshold_witness :
  decToHexStr 255 (replicate 11 "?"%char) ≫= c_string
  = Some "0x0000FF"%string.
Proof.
  apply (C2_decToHexStr_below_threshold 255 (replicate 11 "?"%char));
    [lia | reflexivity | reflexivity].
Defined.

(** C1: for every 32-bit value [v] of at least 0x01000000 the encoder
    computes all eight hexadecimal digits of [v], then overwrites the two
    most significant ones, which are not both zero, with the characters '0'
    and 'x'.  The visible digits are the six low nibbles of [v] and denote
    [v mod 0x1000000], which is less than [v].  In particular the result for
    0x12345678 is "0x345678". *)
Theorem C1_decToHexStr_high_digits_lost (v : Z) (str : list ascii) :
  16777216 ≤ v < 4294967296 → length str = 11%nat →
  ∃ filled out,
    decToHexStr_digits v str = Some filled
    ∧ take 8 filled = spec_hex 8 v
    ∧ hex_value (take 8 filled) = Some v
    ∧ hex_value (take 2 filled) = Some (v / 16777216)
    ∧ 0 < v / 16777216
    ∧ decToHexStr v str = Some out
    ∧ take 2 out = ["0"%char; "x"%char]
    ∧ drop 2 out = drop 2 filled
    ∧ take 6 (drop 2 out) = spec_hex 6 (v mod 16777216)
    ∧ c_string out
      = Some ("0x" ++ string_of_list_ascii (spec_hex 6 (v mod 16777216)))%string
    ∧ hex_value (spec_hex 6 (v mod 16777216)) = Some (v mod 16777216)
    ∧ v mod 16777216 < v
    ∧ (v = 305419896 → c_string out = Some "0x345678"%string).
Proof.
  intros Hv Hlen.
  assert (Hmod : spec_hex 6 (v mod 16777216) = spec_hex 6 v)
    by apply (spec_hex_mod 6 v).
  assert (Hsplit : spec_hex 8 v = spec_hex 2 (v / 16777216) ++ spec_hex 6 v)
    by apply (spec_hex_app 2 6 v).
  assert (Hstr := decToHexStr_c_string v str ltac:(lia) ltac:(lia)).
  rewrite decToHexStr_spec in Hstr by lia. cbn [mbind option_bind] in Hstr.
  eexists _, _. split; [apply decToHexStr_digits_spec; lia|].
  assert (Htake8 : take 8 (spec_hex 8 v ++ NUL :: drop 9 str) = spec_hex 8 v).
  { by rewrite take_app_length' by (by rewrite length_spec_hex). }
  assert (Htake2 : take 2 (spec_hex 8 v ++ NUL :: drop 9 str)
                   = spec_hex 2 (v / 16777216)).
  { rewrite Hsplit, <- app_assoc. by rewrite take_app_length' by (by rewrite length_spec_hex). }
  assert (Hdrop2 : drop 2 (spec_hex 8 v ++ NUL :: drop 9 str)
                   = spec_hex 6 v ++ NUL :: drop 9 str).
  { rewrite Hsplit, <- app_assoc. by rewrite drop_app_length' by (by rewrite length_spec_hex). }
  split_and!.
  - exact Htake8.
  - rewrite Htake8, hex_value_spec_hex by lia. f_equal. apply Z.mod_small.
    change (16 ^ Z.of_nat 8) with 4294967296. lia.
  - rewrite Htake2, hex_value_spec_hex by (apply Z.div_pos; lia).
    f_equal. apply Z.mod_small. change (16 ^ Z.of_nat 2) with 256.
    split; [apply Z.div_pos; lia | apply Z.div_lt_upper_bound; lia].
  - apply Z.div_str_pos. lia.
  - apply decToHexStr_spec; lia.
  - reflexivity.
  - by rewrite Hdrop2.
  - rewrite Hmod. cbn [drop]. rewrite drop_0. by rewrite take_app_length' by (by rewrite length_spec_hex).
  - rewrite Hmod. exact Hstr.
  - rewrite hex_value_spec_hex by (apply Z.mod_pos_bound; lia).
    f_equal. apply Z.mod_small. change (16 ^ Z.of_nat 6) with 16777216.
    apply Z.mod_pos_bound. lia.
  - pose proof (Z.mod_pos_bound v 16777216). lia.
  - intros ->. exact Hstr.
Qed.

Lemma C1_decToHexStr_high_digits_lost_witness :
  ∃ filled out,
    decToHexStr_digits 305419896 (replicate 11 "?"%char) = Some filled
    ∧ decToHexStr 305419896 (replicate 11 "?"%char) = Some out
    ∧ hex_value (take 8 filled) = Some 305419896
    ∧ c_string out = Some "0x345678"%string.
Proof.
  destruct (C1_decToHexStr_high_digits_lost 305419896 (replicate 11 "?"%char))
    as (filled & out & H1 & _ & H3 & _ & _ & H6 & _ & _ & _ & _ & _ & _ & H13);
    [lia | reflexivity |].
  exists filled, out. split_and!; [exact H1 | exact H6 | exact H3 | exact (H13 eq_refl)].
Defined.

(** C3 as stated does not hold: the claim gives the visible result nine
    characters.  For the value 0 and a buffer of eleven question marks the
    terminator is at position 8 but the visible result, "0x000000", has
    eight characters. *)
Lemma C3_counterexample :
  ¬ (∃ out s,
       decToHexStr 0 (replicate 11 "?"%char) = Some out
       ∧ out !! 8%nat = Some NUL
       ∧ c_string out = Some s
       ∧ String.length s = 9%nat).
Proof.
  intros (out & s & Hout & _ & Hs & Hlen).
  vm_compute in Hout. injection Hout as <-.
  vm_compute in Hs. injection Hs as <-.
  discriminate Hlen.
Qed.

(** C3, amended: for every input value the encoder places the string
    terminator at buffer position 8 and produces an eight-character visible
    result (nine bytes with the terminator) that consists of "0x" followed by
    exactly six hexadecimal digit characters. *)
Theorem C3_decToHexStr_shape (v : Z) (str : list ascii) :
  0 ≤ v < 4294967296 → length str = 11%nat →
  ∃ out digits,
    decToHexStr v str = Some out
    ∧ length out = 11%nat
    ∧ out !! 8%nat = Some NUL
    ∧ strlen out = Some 8
    ∧ c_string out = Some ("0x" ++ string_of_list_ascii digits)%string
    ∧ length digits = 6%nat
    ∧ Forall is_hex_digit digits
    ∧ String.length ("0x" ++ string_of_list_ascii digits) = 8%nat.
Proof.
  intros Hv Hlen.
  assert (Hstr := decToHexStr_c_string v str ltac:(lia) ltac:(lia)).
  rewrite decToHexStr_spec in Hstr by lia. cbn [mbind option_bind] in Hstr.
  assert (Hnul : NUL ∉ "0"%char :: "x"%char :: spec_hex 6 v).
  { intros Hin. apply elem_of_cons in Hin as [Hin|Hin]; [discriminate Hin|].
    apply elem_of_cons in Hin as [Hin|Hin]; [discriminate Hin|].
    pose proof (spec_hex_all_hex 6 v) as Hhex.
    rewrite Forall_forall in Hhex. by apply Hhex, is_hex_digit_not_NUL in Hin. }
  exists ("0"%char :: "x"%char :: spec_hex 6 v ++ NUL :: drop 9 str), (spec_hex 6 v).
  split_and!.
  - apply decToHexStr_spec; lia.
  - cbn [length]. rewrite length_app, length_spec_hex. cbn [length].
    rewrite length_drop. lia.
  - apply (list_lookup_middle ("0"%char :: "x"%char :: spec_hex 6 v)).
    cbn [length]. by rewrite length_spec_hex.
  - pose proof (strlen_spec _ (drop 9 str) Hnul) as Hs.
    cbn [app length] in Hs. rewrite length_spec_hex in Hs. exact Hs.
  - exact Hstr.
  - apply length_spec_hex.
  - apply spec_hex_all_hex.
  - reflexivity.
Qed.

Lemma C3_decToHexStr_shape_witness :
  ∃ out digits,
    decToHexStr 255 (replicate 11 "?"%char) = Some out
    ∧ out !! 8%nat = Some NUL
    ∧ c_string out = Some ("0x" ++ string_of_list_ascii digits)%string
    ∧ length digits = 6%nat.
Proof.
  destruct (C3_decToHexStr_shape 255 (replicate 11 "?"%char))
    as (out & digits & H1 & _ & H3 & _ & H5 & H6 & _); [lia | reflexivity |].
  exists out, digits. split_and!; [exact H1 | exact H3 | exact H5 | exact H6].
Defined.

(** ** Colour attributes and cells *)

(** The packing on each of the 256 pairs of nibbles. *)
Lemma vga_entry_color_nibbles :
  Forall (λ fg,
    Forall (λ bg,
      vga_entry_color fg bg = Z.lor fg (Z.shiftl bg 4)
      ∧ vga_entry_color fg bg mod 16 = fg
      ∧ vga_entry_color fg bg / 16 = bg) (seqZ 0 16)) (seqZ 0 16).
Proof. apply (bool_decide_unpack _). vm_compute. exact I. Qed.

(** C6: the attribute packing function satisfies
    [pack(fg, bg) = fg | (bg << 4)] for every pair drawn from the four-bit
    palette range: the foreground is the low nibble and the background the
    high one.  In particular pack(Red, Black) = 0x04,
    pack(White, Black) = 0x0F and pack(Yellow, Black) = 0x0E. *)
Theorem C6_vga_entry_color_pack (fg bg : Z) :
  0 ≤ fg < 16 → 0 ≤ bg < 16 →
  vga_entry_color fg bg = Z.lor fg (Z.shiftl bg 4)
  ∧ vga_entry_color fg bg mod 16 = fg
  ∧ vga_entry_color fg bg / 16 = bg
  ∧ vga_entry_color (VGA_COLOR_value VGA_COLOR_RED)
                    (VGA_COLOR_value VGA_COLOR_BLACK) = 4
  ∧ vga_entry_color (VGA_COLOR_value VGA_COLOR_WHITE)
                    (VGA_COLOR_value VGA_COLOR_BLACK) = 15
  ∧ vga_entry_color (VGA_COLOR_value VGA_COLOR_YELLOW)
                    (VGA_COLOR_value VGA_COLOR_BLACK) = 14.
Proof.
  intros Hfg Hbg.
  pose proof vga_entry_color_nibbles as Hall.
  rewrite Forall_forall in Hall. specialize (Hall fg).
  rewrite Forall_forall in Hall.
  destruct (Hall ltac:(apply elem_of_seqZ; lia) bg ltac:(apply elem_of_seqZ; lia))
    as (Hlor & Hlow & Hhigh).
  split_and!; done.
Qed.

Lemma C6_vga_entry_color_pack_witness :
  vga_entry_color 14 1 = Z.lor 14 (Z.shiftl 1 4).
Proof.
  apply (C6_vga_entry_color_pack 14 1); lia.
Defined.

(** ** The write loop of the terminal *)

Section TerminalProperties.
Variable size_bits : Z.

(** The C standard gives [size_t] at least sixteen bits. *)
Hypothesis size_bits_min : 16 ≤ size_bits.

Local Abbreviation wrap := (size_wrap size_bits).
Local Abbreviation step := (terminal_step size_bits).
Local Abbreviation newline := ("010"%char) (only parsing).

(** The loop over the indices of a text is a fold over its characters. *)
Lemma terminalPut_body_foldl (pre s rest : list ascii) color t :
  foldl (λ r j, t ← r; terminalPut_body size_bits (pre ++ s ++ rest) color j t)
        (Some t) (seqZ (Z.of_nat (length pre)) (Z.of_nat (length s)))
  = Some (foldl (step color) t s).
Proof.
  revert pre t. induction s as [|c s IH]; intros pre t; [done|].
  rewrite seqZ_cons by (cbn [length]; lia). cbn [foldl mbind option_bind].
  unfold terminalPut_body at 2. cbn [app].
  rewrite load_char_nat, list_lookup_middle by done. cbn [mbind option_bind].
  specialize (IH (pre ++ [c]) (step color t c)).
  rewrite <- !app_assoc, length_app in IH. cbn [app length] in IH.
  replace (Z.succ (Z.of_nat (length pre))) with (Z.of_nat (length pre + 1)) by lia.
  replace (Z.pred (Z.of_nat (length (c :: s)))) with (Z.of_nat (length s))
    by (cbn [length]; lia).
  exact IH.
Qed.

(** [terminalPut] on a C string: the characters before the terminator are
    processed from left to right; what follows the terminator is not read. *)
Lemma terminalPut_foldl (s rest : list ascii) color t :
  NUL ∉ s →
  terminalPut size_bits (s ++ NUL :: rest) color t
  = Some (foldl (step color) t s).
Proof.
  intros Hs. unfold terminalPut. rewrite strlen_spec by done.
  cbn [mbind option_bind].
  rewrite (for_loop_foldl (length s) 0).
  apply (terminalPut_body_foldl [] s (NUL :: rest)).
Qed.

Lemma terminalPut_empty (rest : list ascii) color t :
  terminalPut size_bits (NUL :: rest) color t = Some t.
Proof. apply (terminalPut_foldl [] rest), not_elem_of_nil. Qed.

Lemma terminalPut_cons c (s rest : list ascii) color t :
  c ≠ NUL → NUL ∉ s →
  terminalPut size_bits (c :: s ++ NUL :: rest) color t
  = terminalPut size_bits (s ++ NUL :: rest) color (step color t c).
Proof.
  intros Hc Hs.
  change (c :: s ++ NUL :: rest) with ((c :: s) ++ NUL :: rest).
  rewrite (terminalPut_foldl (c :: s))
    by (apply not_elem_of_cons; split; [congruence | done]).
  by rewrite terminalPut_foldl.
Qed.

(** Small values are their own [size_t] conversion. *)
Lemma wrap_small z : 0 ≤ z < 65536 → wrap z = z.
Proof.
  intros Hz. apply Z.mod_small. split; [lia|].
  apply Z.lt_le_trans with (2 ^ 16); [lia|].
  apply Z.pow_le_mono_r; lia.
Qed.

Lemma wrap_in_range z : 0 ≤ z < 2 ^ size_bits → wrap z = z.
Proof. apply Z.mod_small. Qed.

Lemma wrap_wrap_add z k : wrap (wrap z + k) = wrap (z + k).
Proof.
  unfold size_wrap. apply Zplus_mod_idemp_l.
Qed.

Lemma size_modulus_pos : 0 < 2 ^ size_bits.
Proof. apply Z.pow_pos_nonneg; lia. Qed.

Lemma wrap_range z : 0 ≤ wrap z < 2 ^ size_bits.
Proof. apply Z.mod_pos_bound, size_modulus_pos. Qed.

(** The state after a text, in terms of the trace of its stores. *)
Lemma foldl_step_spec (s : list ascii) color t :
  foldl (step color) t s
  = Terminal (terminal_buffer t)
      (cursor_after size_bits s (terminal_row t) (terminal_col t)).1
      (cursor_after size_bits s (terminal_row t) (terminal_col t)).2
      (paint (terminal_buffer t) color (memory t)
         (cells_written size_bits s (terminal_row t) (terminal_col t))).
Proof.
  revert t. induction s as [|c s IH]; intros [base row col m]; [done|].
  cbn [foldl cursor_after cells_written]. rewrite IH. unfold terminal_step.
  destruct (decide (c = newline)); reflexivity.
Qed.

Lemma cursor_after_row (s : list ascii) row col :
  0 ≤ row < 2 ^ size_bits →
  (cursor_after size_bits s row col).1
  = wrap (row + Z.of_nat (length (filter (λ c, c = newline) s))).
Proof.
  revert row col. induction s as [|c s IH]; intros row col Hrow.
  - cbn. rewrite Z.add_0_r. symmetry. by apply wrap_in_range.
  - cbn [cursor_after]. rewrite filter_cons.
    destruct (decide (c = newline)).
    + rewrite IH by apply wrap_range. rewrite wrap_wrap_add.
      f_equal. cbn [length]. lia.
    + by rewrite IH.
Qed.

Lemma cursor_after_col (s : list ascii) row col :
  newline ∉ s → 0 ≤ col < 2 ^ size_bits →
  (cursor_after size_bits s row col).2 = wrap (col + Z.of_nat (length s)).
Proof.
  revert col. induction s as [|c s IH]; intros col Hs Hcol.
  - cbn. rewrite Z.add_0_r. symmetry. by apply wrap_in_range.
  - apply not_elem_of_cons in Hs as [Hc Hs]. cbn [cursor_after].
    rewrite decide_False by congruence.
    rewrite IH by (done || apply wrap_range). rewrite wrap_wrap_add.
    f_equal. cbn [length]. lia.
Qed.

(** ** Cells *)

Lemma char_code_range c : 0 ≤ char_code c < 256.
Proof.
  unfold char_code. pose proof (N_ascii_bounded c). lia.
Qed.

(** A cell is the character in the low byte and the attribute in the high
    byte, checked on every pair of bytes. *)
Lemma vga_entry_bytes_all :
  Forall (λ uc,
    Forall (λ attr, vga_entry uc attr = uc + 256 * attr) (seqZ 0 256))
    (seqZ 0 256).
Proof. apply (bool_decide_unpack _). vm_compute. exact I. Qed.

Lemma vga_entry_bytes uc attr :
  0 ≤ uc < 256 → 0 ≤ attr < 256 → vga_entry uc attr = uc + 256 * attr.
Proof.
  intros Huc Hattr. pose proof vga_entry_bytes_all as Hall.
  rewrite Forall_forall in Hall. specialize (Hall uc).
  rewrite Forall_forall in Hall.
  apply Hall; apply elem_of_seqZ; lia.
Qed.

Lemma step_newline color t :
  step color t newline
  = Terminal (terminal_buffer t) (wrap (terminal_row t + 1)) 0 (memory t).
Proof. reflexivity. Qed.

Lemma step_char c color t :
  c ≠ newline →
  step color t c
  = Terminal (terminal_buffer t) (terminal_row t) (wrap (terminal_col t + 1))
      (<[terminal_buffer t
         + 2 * wrap (terminal_col t + wrap (terminal_row t * 80))
         := vga_entry (char_code c) color]> (memory t)).
Proof. intros Hc. unfold terminal_step. by rewrite decide_False. Qed.

(** C9: writing the empty string through any console entry point is a
    no-op: for every starting state, [terminalPut] on a string that begins
    with the terminator returns the state it was given, with the same cursor
    row, cursor column and memory; so do [write], [kerr] and [kwarn]. *)
Theorem C9_terminalPut_empty_string (rest : list ascii) (color : Z) (t : terminal) :
  terminalPut size_bits (NUL :: rest) color t = Some t
  ∧ write size_bits (NUL :: rest) t = Some t
  ∧ kerr size_bits (NUL :: rest) t = Some t
  ∧ kwarn size_bits (NUL :: rest) t = Some t.
Proof. split_and!; apply terminalPut_empty. Qed.

(** C4: the write loop handles the characters of its input in order.  On a
    newline it increments the row by one and resets the column to zero
    without writing a cell; on any other character it writes one cell, that
    character in the low byte and the supplied attribute in the high byte, at
    the cell of the cursor and then increments the column by one.  The
    increments are those of [size_t]: exactly one more for every value below
    the largest.  Concretely, writing "A\nB" from the cursor (0,0) places
    'A' at (0,0) and 'B' at (1,0), each under the attribute, and leaves the
    cursor at (1,1). *)
Theorem C4_terminalPut_per_character
    (s rest : list ascii) (color : Z) (t : terminal) :
  NUL ∉ s →
  terminalPut size_bits (NUL :: rest) color t = Some t
  ∧ terminalPut size_bits (newline :: s ++ NUL :: rest) color t
    = terminalPut size_bits (s ++ NUL :: rest) color
        (Terminal (terminal_buffer t) (wrap (terminal_row t + 1)) 0 (memory t))
  ∧ (∀ c, c ≠ newline → c ≠ NUL →
       terminalPut size_bits (c :: s ++ NUL :: rest) color t
       = terminalPut size_bits (s ++ NUL :: rest) color
           (Terminal (terminal_buffer t) (terminal_row t)
              (wrap (terminal_col t + 1))
              (<[terminal_buffer t
                 + 2 * wrap (terminal_col t + wrap (terminal_row t * 80))
                 := vga_entry (char_code c) color]> (memory t))))
  ∧ (0 ≤ terminal_row t < 25 → 0 ≤ terminal_col t < 80 →
       terminal_buffer t + 2 * wrap (terminal_col t + wrap (terminal_row t * 80))
       = cell_address (terminal_buffer t) (terminal_row t) (terminal_col t)
       ∧ wrap (terminal_row t + 1) = terminal_row t + 1
       ∧ wrap (terminal_col t + 1) = terminal_col t + 1)
  ∧ (∀ base m,
       terminalPut size_bits ("A"%char :: newline :: "B"%char :: NUL :: rest)
         color (Terminal base 0 0 m)
       = Some (Terminal base 1 1
                 (<[cell_address base 1 0 := vga_entry (char_code "B") color]>
                    (<[cell_address base 0 0 := vga_entry (char_code "A") color]>
                       m))))
  ∧ (0 ≤ color < 256 →
       ∀ c, vga_entry (char_code c) color = char_code c + 256 * color
            ∧ vga_entry (char_code c) color mod 256 = char_code c
            ∧ vga_entry (char_code c) color / 256 = color)
  ∧ (0 ≤ color < 256 →
       ∀ c, c ≠ newline → c ≠ NUL →
         terminalPut size_bits (c :: s ++ NUL :: rest) color t
         = terminalPut size_bits (s ++ NUL :: rest) color
             (Terminal (terminal_buffer t) (terminal_row t)
                (wrap (terminal_col t + 1))
                (<[terminal_buffer t
                   + 2 * wrap (terminal_col t + wrap (terminal_row t * 80))
                   := char_code c + 256 * color]> (memory t))))
  ∧ (0 ≤ color < 256 →
       ∀ base m,
         terminalPut size_bits ("A"%char :: newline :: "B"%char :: NUL :: rest)
           color (Terminal base 0 0 m)
         = Some (Terminal base 1 1
                   (<[base + 2 * 80 := 66 + 256 * color]>
                      (<[base := 65 + 256 * color]> m))))
  ∧ (0 ≤ terminal_row t → terminal_row t + 1 < 2 ^ size_bits →
       wrap (terminal_row t + 1) = terminal_row t + 1)
  ∧ (0 ≤ terminal_col t → terminal_col t + 1 < 2 ^ size_bits →
       wrap (terminal_col t + 1) = terminal_col t + 1).
Proof.
  intros Hs.
  assert (Hcell : 0 ≤ color < 256 →
            ∀ c, vga_entry (char_code c) color = char_code c + 256 * color).
  { intros Hcolor c. apply vga_entry_bytes; [apply char_code_range | done]. }
  assert (Hexample : ∀ base m,
            terminalPut size_bits
              ("A"%char :: newline :: "B"%char :: NUL :: rest)
              color (Terminal base 0 0 m)
            = Some (Terminal base 1 1
                      (<[cell_address base 1 0 := vga_entry (char_code "B") color]>
                         (<[cell_address base 0 0
                            := vga_entry (char_code "A") color]> m)))).
  { intros base m.
    rewrite (terminalPut_foldl ["A"%char; newline; "B"%char] rest).
    - cbn [foldl].
      rewrite (step_char "A") by discriminate.
      rewrite step_newline, (step_char "B") by discriminate.
      cbn [terminal_buffer terminal_row terminal_col memory].
      unfold cell_address, VGA_WIDTH.
      change (0 + 1) with 1. change (0 * 80) with 0.
      rewrite (wrap_small 0), (wrap_small 1) by lia.
      change (1 * 80) with 80. change (0 + 0) with 0.
      rewrite (wrap_small 0), (wrap_small 80) by lia.
      change (0 + 80) with 80. rewrite (wrap_small 80) by lia.
      reflexivity.
    - intros Hin.
      repeat (apply elem_of_cons in Hin as [Hin|Hin]; [discriminate Hin|]).
      by apply elem_of_nil in Hin. }
  split_and!; [ | | | | exact Hexample | | | | | ].
  - apply terminalPut_empty.
  - rewrite terminalPut_cons by done. by rewrite step_newline.
  - intros c Hnl Hc. rewrite terminalPut_cons by done.
    by rewrite step_char.
  - intros Hrow Hcol. unfold cell_address, VGA_WIDTH.
    rewrite !wrap_small by (rewrite ?wrap_small; lia).
    split_and!; [lia | done | done].
  - intros Hcolor c. pose proof (char_code_range c) as Hc.
    rewrite (Hcell Hcolor c). split_and!; [done | |].
    + rewrite Z.mul_comm, Z.mod_add by lia. apply Z.mod_small. lia.
    + rewrite Z.mul_comm, Z.div_add by lia. rewrite Z.div_small by lia. lia.
  - intros Hcolor c Hnl Hc. rewrite terminalPut_cons by done.
    by rewrite step_char, (Hcell Hcolor c).
  - intros Hcolor base m. rewrite (Hexample base m).
    rewrite (Hcell Hcolor "A"%char), (Hcell Hcolor "B"%char).
    unfold cell_address, VGA_WIDTH.
    change (char_code "A") with 65. change (char_code "B") with 66.
    replace (base + 2 * (1 * 80 + 0)) with (base + 2 * 80) by lia.
    replace (base + 2 * (0 * 80 + 0)) with base by lia.
    reflexivity.
  - intros Hrow Hfit. apply wrap_in_range. lia.
  - intros Hcol Hfit. apply wrap_in_range. lia.
Qed.

(** C7 as stated does not hold at the upper end of [size_t].  With a
    32-bit [size_t], one character written at column 4294967295 leaves the
    column at 0, not at 4294967296, and one newline at row 4294967295 leaves
    the row at 0; with a 64-bit [size_t] the same happens at
    18446744073709551615. *)
Lemma C7_counterexample :
  (let col := terminal_col <$> terminalPut 32 ["A"%char; NUL] 15
                                 (Terminal 753664 0 4294967295 ∅) in
   col = Some 0 ∧ col ≠ Some (4294967295 + 1))
  ∧ (let row := terminal_row <$> terminalPut 32 ["010"%char; NUL] 15
                                   (Terminal 753664 4294967295 0 ∅) in
     row = Some 0 ∧ row ≠ Some (4294967295 + 1))
  ∧ (let col := terminal_col <$> terminalPut 64 ["A"%char; NUL] 15
                                   (Terminal 753664 0 18446744073709551615 ∅) in
     col = Some 0 ∧ col ≠ Some (18446744073709551615 + 1))
  ∧ (let row := terminal_row <$> terminalPut 64 ["010"%char; NUL] 15
                                   (Terminal 753664 18446744073709551615 0 ∅) in
     row = Some 0 ∧ row ≠ Some (18446744073709551615 + 1)).
Proof.
  cbv zeta. split_and!; try (vm_compute; reflexivity);
    intros H; vm_compute in H; discriminate H.
Qed.

(** C7, amended: the write loop never wraps or clamps the cursor at the
    dimensions of the display.  Writing n consecutive non-newline characters
    from column c leaves the column at c + n reduced modulo the range of
    [size_t], which is c + n whenever that fits [size_t], also when it
    exceeds the display width 80; the newlines of a text advance the row by
    their number modulo the range of [size_t], also past the buffer height
    25. *)
Theorem C7_cursor_advance (s rest : list ascii) (color : Z) (t : terminal) :
  NUL ∉ s →
  0 ≤ terminal_row t < 2 ^ size_bits →
  0 ≤ terminal_col t < 2 ^ size_bits →
  let n := Z.of_nat (length s) in
  let k := Z.of_nat (length (filter (λ c, c = newline) s)) in
  ∃ t',
    terminalPut size_bits (s ++ NUL :: rest) color t = Some t'
    ∧ terminal_row t' = wrap (terminal_row t + k)
    ∧ (terminal_row t + k < 2 ^ size_bits → terminal_row t' = terminal_row t + k)
    ∧ (newline ∉ s → terminal_col t' = wrap (terminal_col t + n))
    ∧ (newline ∉ s → terminal_col t + n < 2 ^ size_bits →
       terminal_col t' = terminal_col t + n).
Proof.
  intros Hs Hrow Hcol n k.
  eexists. split; [by apply terminalPut_foldl|].
  rewrite foldl_step_spec. cbn [terminal_row terminal_col].
  rewrite cursor_after_row by done.
  split_and!.
  - reflexivity.
  - intros Hfit. apply wrap_in_range. lia.
  - intros Hnl. by apply cursor_after_col.
  - intros Hnl Hfit. rewrite cursor_after_col by done.
    apply wrap_in_range. lia.
Qed.

(** The memories that the same stores leave under three attributes: at each
    address either none of the three was stored to, or all three hold the
    same character under their own attribute. *)
Lemma paint_related base (m : gmap Z Z) (cells : list (Z * ascii)) a1 a2 a3 addr :
  (paint base a1 m cells !! addr = m !! addr
   ∧ paint base a2 m cells !! addr = m !! addr
   ∧ paint base a3 m cells !! addr = m !! addr)
  ∨ (∃ c,
       paint base a1 m cells !! addr = Some (vga_entry (char_code c) a1)
       ∧ paint base a2 m cells !! addr = Some (vga_entry (char_code c) a2)
       ∧ paint base a3 m cells !! addr = Some (vga_entry (char_code c) a3)).
Proof.
  induction cells as [|cell cells IH] using rev_ind; [by left|].
  unfold paint in *. rewrite !foldl_app. cbn [foldl].
  rewrite !lookup_insert. case_decide; [|exact IH].
  right. by exists cell.2.
Qed.

(** C8: for every input string and every starting state the standard, the
    error and the warning entry point perform the same iteration.  Each of
    them returns, with the same final cursor, and stores to the same cells in
    the same order; the cells stored hold the same characters and differ in
    the attribute byte only, which is White on Black (0x0F) for [write], Red
    on Black (0x04) for [kerr] and Yellow on Black (0x0E) for [kwarn].  The
    result is the new state and carries no status. *)
Theorem C8_entry_points_differ_in_attribute_only
    (s rest : list ascii) (t : terminal) :
  NUL ∉ s →
  let cells := cells_written size_bits s (terminal_row t) (terminal_col t) in
  let cursor := cursor_after size_bits s (terminal_row t) (terminal_col t) in
  let after attr :=
    Terminal (terminal_buffer t) cursor.1 cursor.2
             (paint (terminal_buffer t) attr (memory t) cells) in
  write size_bits (s ++ NUL :: rest) t = Some (after 15)
  ∧ kerr size_bits (s ++ NUL :: rest) t = Some (after 4)
  ∧ kwarn size_bits (s ++ NUL :: rest) t = Some (after 14)
  ∧ (∀ addr,
       (memory (after 15) !! addr = memory t !! addr
        ∧ memory (after 4) !! addr = memory t !! addr
        ∧ memory (after 14) !! addr = memory t !! addr)
       ∨ (∃ c,
            memory (after 15) !! addr = Some (char_code c + 256 * 15)
            ∧ memory (after 4) !! addr = Some (char_code c + 256 * 4)
            ∧ memory (after 14) !! addr = Some (char_code c + 256 * 14)))
  ∧ (∀ c attr, 0 ≤ attr < 256 →
       vga_entry (char_code c) attr mod 256 = char_code c
       ∧ vga_entry (char_code c) attr / 256 = attr).
Proof.
  intros Hs cells cursor after. unfold write, kerr, kwarn.
  rewrite !terminalPut_foldl, !foldl_step_spec by done.
  split_and!; [reflexivity .. | |].
  - intros addr. subst after. cbn [memory].
    destruct (paint_related (terminal_buffer t) (memory t) cells 15 4 14 addr)
      as [Hsame | (c & H15 & H4 & H14)]; [by left | right].
    exists c. pose proof (char_code_range c).
    by rewrite <- !vga_entry_bytes by lia.
  - intros c attr Hattr. pose proof (char_code_range c) as Hc.
    rewrite vga_entry_bytes by done. split.
    + rewrite Z.mul_comm, Z.mod_add by lia. apply Z.mod_small. lia.
    + rewrite Z.mul_comm, Z.div_add by lia. rewrite Z.div_small by lia. lia.
Qed.

(** ** initTerminal *)

(** The rule for a counting loop: an invariant that holds on entry and is
    kept by the body holds on exit. *)
Lemma for_loop_invariant {St} (P : Z → St → Prop) i bound body (s : St) :
  i ≤ bound →
  P i s →
  (∀ j s, i ≤ j < bound → P j s → P (j + 1) (body j s)) →
  P bound (for_loop i bound body s).
Proof.
  intros Hle. remember (Z.to_nat (bound - i)) as n eqn:Hn.
  revert i s Hle Hn. induction n as [|n IH]; intros i s Hle Hn Hentry Hbody.
  - assert (bound = i) as -> by lia. by rewrite for_loop_empty.
  - rewrite for_loop_eq, decide_True by lia.
    apply IH; [lia | lia | apply Hbody; [lia | done] |].
    intros j s' Hj. apply Hbody. lia.
Qed.

(** The cell every store of [initTerminal] writes: a space, White on Black. *)
Lemma blank_cell :
  vga_entry (char_code " ")
    (vga_entry_color (VGA_COLOR_value VGA_COLOR_WHITE)
                     (VGA_COLOR_value VGA_COLOR_BLACK)) = 3872.
Proof. reflexivity. Qed.

(** One row: the inner loop blanks the cells of row [y], keeps the cells
    that were blank and leaves the pointer and the cursor alone. *)
Lemma initTerminal_row_spec y t :
  let t' :=
    for_loop 0 VGA_WIDTH (λ x t,
      store_cell t (wrap (wrap (y * VGA_WIDTH) + x)) 3872) t in
  terminal_buffer t' = terminal_buffer t
  ∧ terminal_row t' = terminal_row t
  ∧ terminal_col t' = terminal_col t
  ∧ (∀ a, memory t !! a = Some 3872 → memory t' !! a = Some 3872)
  ∧ (∀ x, 0 ≤ x < VGA_WIDTH →
       memory t' !! (terminal_buffer t + 2 * wrap (wrap (y * VGA_WIDTH) + x))
       = Some 3872).
Proof.
  apply (for_loop_invariant (λ j t',
    terminal_buffer t' = terminal_buffer t
    ∧ terminal_row t' = terminal_row t
    ∧ terminal_col t' = terminal_col t
    ∧ (∀ a, memory t !! a = Some 3872 → memory t' !! a = Some 3872)
    ∧ (∀ x, 0 ≤ x < j →
         memory t' !! (terminal_buffer t + 2 * wrap (wrap (y * VGA_WIDTH) + x))
         = Some 3872))).
  - unfold VGA_WIDTH. lia.
  - split_and!; try done. intros x Hx. lia.
  - intros j s Hj (Hbuf & Hrow & Hcol & Hkeep & Hdone).
    unfold store_cell. cbn [terminal_buffer terminal_row terminal_col memory].
    split_and!; try done.
    + intros a Ha. rewrite lookup_insert. case_decide; [done | by apply Hkeep].
    + intros x Hx. rewrite lookup_insert, Hbuf. case_decide; [done|].
      apply Hdone. destruct (decide (x = j)) as [->|]; [done | lia].
Qed.

(** The whole grid. *)
Lemma initTerminal_spec t :
  terminal_buffer (initTerminal size_bits t) = 753664
  ∧ terminal_row (initTerminal size_bits t) = terminal_row t
  ∧ terminal_col (initTerminal size_bits t) = terminal_col t
  ∧ (∀ y x, 0 ≤ y < VGA_HEIGHT → 0 ≤ x < VGA_WIDTH →
       memory (initTerminal size_bits t)
         !! (753664 + 2 * wrap (wrap (y * VGA_WIDTH) + x)) = Some 3872).
Proof.
  unfold initTerminal. rewrite blank_cell.
  apply (for_loop_invariant (λ j t',
    terminal_buffer t' = 753664
    ∧ terminal_row t' = terminal_row t
    ∧ terminal_col t' = terminal_col t
    ∧ (∀ y x, 0 ≤ y < j → 0 ≤ x < VGA_WIDTH →
         memory t' !! (753664 + 2 * wrap (wrap (y * VGA_WIDTH) + x))
         = Some 3872))).
  - unfold VGA_HEIGHT. lia.
  - split_and!; try done. intros y x Hy. lia.
  - intros j s Hj (Hbuf & Hrow & Hcol & Hdone).
    destruct (initTerminal_row_spec j s) as (Hbuf' & Hrow' & Hcol' & Hkeep & Hnew).
    split_and!; try congruence.
    intros y x Hy Hx. destruct (decide (y = j)) as [->|Hne].
    + rewrite <- Hbuf. by apply Hnew.
    + apply Hkeep, Hdone; [lia | done].
Qed.

Lemma initTerminal_cell t y x :
  0 ≤ y < 25 → 0 ≤ x < 80 →
  memory (initTerminal size_bits t) !! cell_address 753664 y x = Some 3872.
Proof.
  intros Hy Hx.
  destruct (initTerminal_spec t) as (_ & _ & _ & Hcells).
  specialize (Hcells y x Hy Hx). unfold cell_address.
  unfold VGA_WIDTH in *.
  by rewrite !wrap_small in Hcells by (rewrite ?wrap_small; lia).
Qed.

(** C5: after [initTerminal] every one of the 80 x 25 = 2000 cells of
    the frame buffer at 0xB8000 holds the 16-bit unit 0x0F20, whose low byte
    is the space character and whose high byte is pack(White, Black) = 0x0F. *)
Theorem C5_initTerminal_blank_screen (t : terminal) :
  terminal_buffer (initTerminal size_bits t) = 753664
  ∧ (∀ y x, 0 ≤ y < 25 → 0 ≤ x < 80 →
       memory (initTerminal size_bits t) !! cell_address 753664 y x = Some 3872)
  ∧ (∀ i, 0 ≤ i < 2000 →
       memory (initTerminal size_bits t) !! (753664 + 2 * i) = Some 3872)
  ∧ 3872 = vga_entry (char_code " ")
             (vga_entry_color (VGA_COLOR_value VGA_COLOR_WHITE)
                              (VGA_COLOR_value VGA_COLOR_BLACK))
  ∧ 3872 mod 256 = char_code " "
  ∧ 3872 / 256 = vga_entry_color (VGA_COLOR_value VGA_COLOR_WHITE)
                                 (VGA_COLOR_value VGA_COLOR_BLACK)
  ∧ vga_entry_color (VGA_COLOR_value VGA_COLOR_WHITE)
                    (VGA_COLOR_value VGA_COLOR_BLACK) = 15.
Proof.
  destruct (initTerminal_spec t) as (Hbuf & _).
  split_and!; [exact Hbuf | | | reflexivity ..].
  - apply initTerminal_cell.
  - intros i Hi.
    pose proof (initTerminal_cell t (i / 80) (i mod 80)) as Hcell.
    unfold cell_address, VGA_WIDTH in Hcell.
    replace (i / 80 * 80 + i mod 80) with i in Hcell
      by (pose proof (Z.div_mod i 80); lia).
    apply Hcell.
    + split; [apply Z.div_pos; lia | apply Z.div_lt_upper_bound; lia].
    + apply Z.mod_pos_bound. lia.
Qed.

(** C10: [initTerminal] does not reset the cursor: for every starting
    state it leaves [terminal_row] and [terminal_col] unchanged, and they are
    zero after the first call only because the globals start at zero.  After
    a write, a second [initTerminal] blanks the screen and keeps the cursor
    of the write, so the next character goes to the cell of that cursor. *)
Theorem C10_initTerminal_keeps_cursor (t : terminal) :
  terminal_row (initTerminal size_bits t) = terminal_row t
  ∧ terminal_col (initTerminal size_bits t) = terminal_col t
  ∧ (∀ m, terminal_row (initTerminal size_bits (boot_terminal m)) = 0
          ∧ terminal_col (initTerminal size_bits (boot_terminal m)) = 0)
  ∧ (∀ s rest color t1,
       NUL ∉ s →
       terminalPut size_bits (s ++ NUL :: rest) color (initTerminal size_bits t)
       = Some t1 →
       let t2 := initTerminal size_bits t1 in
       terminal_row t2 = terminal_row t1
       ∧ terminal_col t2 = terminal_col t1
       ∧ (∀ y x, 0 ≤ y < 25 → 0 ≤ x < 80 →
            memory t2 !! cell_address 753664 y x = Some 3872)
       ∧ (∀ c rest' color', c ≠ NUL → c ≠ newline →
            terminalPut size_bits (c :: NUL :: rest') color' t2
            = Some (Terminal 753664 (terminal_row t1)
                      (wrap (terminal_col t1 + 1))
                      (<[753664
                         + 2 * wrap (terminal_col t1 + wrap (terminal_row t1 * 80))
                         := vga_entry (char_code c) color']> (memory t2))))).
Proof.
  destruct (initTerminal_spec t) as (_ & Hrow0 & Hcol0 & _).
  split_and!; [exact Hrow0 | exact Hcol0 | |].
  - intros m.
    destruct (initTerminal_spec (boot_terminal m)) as (_ & Hrow & Hcol & _).
    split; [exact Hrow | exact Hcol].
  - intros s rest color t1 Hs Hput t2.
    destruct (initTerminal_spec t1) as (Hbuf & Hrow & Hcol & _).
    fold t2 in Hbuf, Hrow, Hcol.
    split_and!; [exact Hrow | exact Hcol | |].
    + intros y x. apply initTerminal_cell.
    + intros c rest' color' Hc Hnl.
      rewrite (terminalPut_foldl [c] rest')
        by (apply not_elem_of_cons; split; [congruence | apply not_elem_of_nil]).
      cbn [foldl]. rewrite step_char by done.
      by rewrite Hbuf, Hrow, Hcol.
Qed.

(** [write_hex] sends the eight visible characters of the encoder through
    the write loop, whatever the local buffer held on entry. *)
Lemma write_hex_spec hex (stack : list ascii) t :
  0 ≤ hex < 4294967296 → length stack = 11%nat →
  write_hex size_bits hex stack t
  = Some (foldl (step 15) t ("0"%char :: "x"%char :: spec_hex 6 hex)).
Proof.
  intros Hhex Hlen. unfold write_hex, write.
  rewrite decToHexStr_spec by lia. cbn [mbind option_bind].
  apply (terminalPut_foldl ("0"%char :: "x"%char :: spec_hex 6 hex)).
  intros Hin. apply elem_of_cons in Hin as [Hin|Hin]; [discriminate Hin|].
  apply elem_of_cons in Hin as [Hin|Hin]; [discriminate Hin|].
  pose proof (spec_hex_all_hex 6 hex) as Hdigits.
  rewrite Forall_forall in Hdigits. by apply Hdigits, is_hex_digit_not_NUL in Hin.
Qed.

End TerminalProperties.

(** ** The statements on a 32-bit target *)

Lemma C4_terminalPut_per_character_witness :
  terminalPut 32 ["A"%char; "010"%char; "B"%char; NUL] 15
    (Terminal 753664 0 0 ∅)
  = Some (Terminal 753664 1 1
            (<[cell_address 753664 1 0 := vga_entry (char_code "B") 15]>
               (<[cell_address 753664 0 0 := vga_entry (char_code "A") 15]> ∅)))
  ∧ terminalPut 32 ["A"%char; "010"%char; "B"%char; NUL] 15
      (Terminal 753664 0 0 ∅)
    = Some (Terminal 753664 1 1
              (<[753664 + 2 * 80 := 66 + 256 * 15]>
                 (<[753664 := 65 + 256 * 15]> ∅))).
Proof.
  destruct (C4_terminalPut_per_character 32 ltac:(lia) ["B"%char] [] 15
              (Terminal 753664 0 0 ∅))
    as (_ & _ & _ & _ & Hex & _ & _ & Hcells & _).
  - apply (bool_decide_unpack _). vm_compute. exact I.
  - split; [exact (Hex 753664 ∅) | apply Hcells; lia].
Defined.

Lemma C5_initTerminal_blank_screen_witness :
  memory (initTerminal 32 (boot_terminal ∅)) !! cell_address 753664 24 79
  = Some 3872.
Proof.
  destruct (C5_initTerminal_blank_screen 32 ltac:(lia) (boot_terminal ∅))
    as (_ & Hcells & _).
  apply Hcells; lia.
Defined.

Lemma C7_cursor_advance_witness :
  ∃ t',
    terminalPut 32 (replicate 100 "A"%char ++ [NUL]) 15 (Terminal 753664 0 0 ∅)
    = Some t'
    ∧ terminal_col t' = 100.
Proof.
  pose proof (C7_cursor_advance 32 ltac:(lia) (replicate 100 "A"%char) [] 15
                (Terminal 753664 0 0 ∅)) as Hadv.
  cbv zeta in Hadv.
  destruct Hadv as (t' & Hput & _ & _ & _ & Hcol).
  - apply (bool_decide_unpack _). vm_compute. exact I.
  - cbn [terminal_row]. lia.
  - cbn [terminal_col]. lia.
  - exists t'. split; [exact Hput|].
    rewrite Hcol.
    + by rewrite length_replicate.
    + apply (bool_decide_unpack _). vm_compute. exact I.
    + rewrite length_replicate. cbn [terminal_col]. lia.
Defined.

Lemma C8_entry_points_differ_in_attribute_only_witness :
  write 32 ["A"%char; NUL] (boot_terminal ∅)
  = Some (Terminal 0 0 1 (paint 0 15 ∅ [(0, "A"%char)]))
  ∧ kerr 32 ["A"%char; NUL] (boot_terminal ∅)
    = Some (Terminal 0 0 1 (paint 0 4 ∅ [(0, "A"%char)]))
  ∧ kwarn 32 ["A"%char; NUL] (boot_terminal ∅)
    = Some (Terminal 0 0 1 (paint 0 14 ∅ [(0, "A"%char)])).
Proof.
  pose proof (C8_entry_points_differ_in_attribute_only 32 ["A"%char] []
                (boot_terminal ∅)) as Hsame.
  cbv zeta in Hsame.
  destruct Hsame as (Hwrite & Hkerr & Hkwarn & _).
  - apply (bool_decide_unpack _). vm_compute. exact I.
  - split_and!; [exact Hwrite | exact Hkerr | exact Hkwarn].
Defined.

Lemma C10_initTerminal_keeps_cursor_witness :
  terminal_row (initTerminal 32 (Terminal 0 3 4 ∅)) = 3
  ∧ terminal_col (initTerminal 32 (Terminal 0 3 4 ∅)) = 4.
Proof.
  destruct (C10_initTerminal_keeps_cursor 32 ltac:(lia) (Terminal 0 3 4 ∅))
    as (Hrow & Hcol & _).
  split; [exact Hrow | exact Hcol].
Defined.

(** * Further properties of the code *)

(** ** strlen *)

Lemma strlen_cases (str : list ascii) :
  ((NUL ∉ str) ∧ strlen str = None)
  ∨ (∃ s rest, str = s ++ NUL :: rest ∧ (NUL ∉ s)
               ∧ strlen str = Some (Z.of_nat (length s))).
Proof.
  destruct (decide (NUL ∈ str)) as [Hin|Hnot].
  - right. apply list_elem_of_split_l in Hin as (s & rest & -> & Hs).
    exists s, rest. split_and!; [done | done | by apply strlen_spec].
  - left. split; [done|]. apply (strlen_loop_None str 0). by rewrite drop_0.
Qed.

(** X1: [strlen] returns the position of the first terminator of the
    object and ignores what follows it; on an object without a terminator it
    has no result, since the scan leaves the object. *)
Theorem X1_strlen_first_terminator (str : list ascii) (n : Z) :
  (strlen str = Some n
   ↔ ∃ s rest, str = s ++ NUL :: rest ∧ (NUL ∉ s) ∧ n = Z.of_nat (length s))
  ∧ (strlen str = None ↔ NUL ∉ str)
  ∧ (strlen str = Some n → 0 ≤ n < Z.of_nat (length str)).
Proof.
  pose proof (strlen_cases str) as Hcases.
  split_and!.
  - split.
    + intros Hn. destruct Hcases as [[_ Hnone] | (s & rest & -> & Hs & Hlen)];
        [congruence|].
      exists s, rest. split_and!; [done | done | congruence].
    + intros (s & rest & -> & Hs & ->). by apply strlen_spec.
  - split.
    + intros Hnone. destruct Hcases as [[Hnot _] | (s & rest & _ & _ & Hlen)];
        [done | congruence].
    + intros Hnot. destruct Hcases as [[_ Hnone] | (s & rest & -> & _ & _)];
        [done|].
      exfalso. apply Hnot. set_solver.
  - intros Hn. destruct Hcases as [[_ Hnone] | (s & rest & -> & Hs & Hlen)];
      [congruence|].
    rewrite Hlen in Hn. injection Hn as <-.
    rewrite length_app. cbn [length]. lia.
Qed.

(** ** decToHexStr *)

(** X2: [decToHexStr] has a result exactly when the buffer has at least
    nine bytes.  It then keeps the length of the buffer, leaves every byte
    from position 9 on as it was, and its first nine bytes do not depend on
    what the buffer held before. *)
Theorem X2_decToHexStr_buffer (v : Z) (str : list ascii) :
  0 ≤ v < 4294967296 →
  (is_Some (decToHexStr v str) ↔ (9 ≤ length str)%nat)
  ∧ (∀ out, decToHexStr v str = Some out →
       length out = length str
       ∧ drop 9 out = drop 9 str
       ∧ take 9 out = "0"%char :: "x"%char :: spec_hex 6 v ++ [NUL]).
Proof.
  intros Hv.
  assert (Hshort : (length str < 9)%nat → decToHexStr v str = None).
  { intros Hlen. unfold decToHexStr, decToHexStr_digits, store_char.
    rewrite decide_False by lia. reflexivity. }
  split.
  - split.
    + intros [out Hout]. destruct (decide (9 ≤ length str)%nat); [done|].
      rewrite Hshort in Hout by lia. discriminate Hout.
    + intros Hlen. rewrite decToHexStr_spec by lia. by eexists.
  - intros out Hout.
    destruct (decide (9 ≤ length str)%nat) as [Hlen|Hlen];
      [|rewrite Hshort in Hout by lia; discriminate Hout].
    rewrite decToHexStr_spec in Hout by lia.
    assert (out = "0"%char :: "x"%char :: spec_hex 6 v ++ NUL :: drop 9 str)
      as -> by congruence.
    clear Hout.
    change ("0"%char :: "x"%char :: spec_hex 6 v ++ NUL :: drop 9 str)
      with (("0"%char :: "x"%char :: spec_hex 6 v) ++ [NUL] ++ drop 9 str).
    rewrite app_assoc.
    assert (Hpre : length (("0"%char :: "x"%char :: spec_hex 6 v) ++ [NUL]) = 9%nat).
    { rewrite length_app. cbn [length]. rewrite length_spec_hex. lia. }
    split_and!.
    + rewrite length_app, Hpre, length_drop. lia.
    + by rewrite drop_app_length'.
    + by rewrite take_app_length'.
Qed.

Lemma X2_decToHexStr_buffer_witness :
  is_Some (decToHexStr 255 (replicate 11 "?"%char))
  ∧ ¬ is_Some (decToHexStr 255 (replicate 8 "?"%char)).
Proof.
  destruct (X2_decToHexStr_buffer 255 (replicate 11 "?"%char)) as [Hlong _];
    [lia|].
  destruct (X2_decToHexStr_buffer 255 (replicate 8 "?"%char)) as [Hshort _];
    [lia|].
  split.
  - apply Hlong. cbn. lia.
  - intros Hsome. apply Hshort in Hsome. cbn in Hsome. lia.
Defined.

Lemma string_of_list_ascii_inj (l1 l2 : list ascii) :
  string_of_list_ascii l1 = string_of_list_ascii l2 → l1 = l2.
Proof.
  intros Heq.
  rewrite <- (list_ascii_of_string_of_list_ascii l1),
          <- (list_ascii_of_string_of_list_ascii l2).
  by rewrite Heq.
Qed.

(** X3: two 32-bit values give the same visible string exactly when their
    low 24 bits agree: the encoder tells apart no more than that. *)
Theorem X3_decToHexStr_collisions (v1 v2 : Z) (str1 str2 : list ascii) :
  0 ≤ v1 < 4294967296 → 0 ≤ v2 < 4294967296 →
  length str1 = 11%nat → length str2 = 11%nat →
  decToHexStr v1 str1 ≫= c_string = decToHexStr v2 str2 ≫= c_string
  ↔ v1 mod 16777216 = v2 mod 16777216.
Proof.
  intros Hv1 Hv2 Hlen1 Hlen2.
  rewrite !decToHexStr_c_string by lia.
  split.
  - intros Heq.
    assert (Hstr : string_of_list_ascii (spec_hex 6 v1)
                   = string_of_list_ascii (spec_hex 6 v2)) by congruence.
    clear Heq. apply string_of_list_ascii_inj in Hstr as Heq.
    pose proof (hex_value_spec_hex 6 v1 ltac:(lia)) as H1.
    pose proof (hex_value_spec_hex 6 v2 ltac:(lia)) as H2.
    rewrite Heq, H2 in H1. injection H1 as H1.
    change (16 ^ Z.of_nat 6) with 16777216 in H1. lia.
  - intros Heq.
    rewrite <- (spec_hex_mod 6 v1), <- (spec_hex_mod 6 v2).
    change (16 ^ Z.of_nat 6) with 16777216. by rewrite Heq.
Qed.

Lemma X3_decToHexStr_collisions_witness :
  decToHexStr 305419896 (replicate 11 "?"%char) ≫= c_string
  = decToHexStr 3430008 (replicate 11 "!"%char) ≫= c_string.
Proof.
  apply (X3_decToHexStr_collisions 305419896 3430008
           (replicate 11 "?"%char) (replicate 11 "!"%char));
    [lia | lia | reflexivity | reflexivity | reflexivity].
Defined.

(** ** terminalPut *)

Section TerminalExtras.
Variable size_bits : Z.
Hypothesis size_bits_min : 16 ≤ size_bits.

Local Abbreviation wrap := (size_wrap size_bits).
Local Abbreviation step := (terminal_step size_bits).
Local Abbreviation newline := ("010"%char) (only parsing).

(** X4: two calls of [terminalPut] in a row do what one call on the
    concatenated text does: a message can be written in pieces. *)
Theorem X4_terminalPut_sequence
    (s1 rest1 s2 rest2 rest : list ascii) (color : Z) (t : terminal) :
  NUL ∉ s1 → NUL ∉ s2 →
  terminalPut size_bits (s1 ++ NUL :: rest1) color t
    ≫= terminalPut size_bits (s2 ++ NUL :: rest2) color
  = terminalPut size_bits ((s1 ++ s2) ++ NUL :: rest) color t.
Proof.
  intros Hs1 Hs2.
  rewrite (terminalPut_foldl size_bits s1) by done. cbn [mbind option_bind].
  rewrite (terminalPut_foldl size_bits s2) by done.
  rewrite (terminalPut_foldl size_bits (s1 ++ s2))
    by (rewrite elem_of_app; tauto).
  by rewrite foldl_app.
Qed.

(** A text without newline that fits the rest of its row. *)
Lemma foldl_step_line (s : list ascii) color t :
  newline ∉ s →
  0 ≤ terminal_row t < 25 → 0 ≤ terminal_col t →
  terminal_col t + Z.of_nat (length s) ≤ 80 →
  let t' := foldl (step color) t s in
  terminal_buffer t' = terminal_buffer t
  ∧ terminal_row t' = terminal_row t
  ∧ terminal_col t' = terminal_col t + Z.of_nat (length s)
  ∧ (∀ (i : nat) c, s !! i = Some c →
       memory t' !! cell_address (terminal_buffer t) (terminal_row t)
                      (terminal_col t + Z.of_nat i)
       = Some (vga_entry (char_code c) color))
  ∧ (∀ a, (∀ i : nat, (i < length s)%nat →
             a ≠ cell_address (terminal_buffer t) (terminal_row t)
                   (terminal_col t + Z.of_nat i)) →
          memory t' !! a = memory t !! a).
Proof.
  revert t. induction s as [|c s IH]; intros t Hnl Hrow Hcol Hfit.
  - cbn [foldl length]. split_and!; [done | done | lia | | done].
    intros i c Hi. by rewrite lookup_nil in Hi.
  - apply not_elem_of_cons in Hnl as [Hc Hnl]. cbn [length] in Hfit.
    cbn [foldl]. rewrite step_char by congruence.
    assert (Hwrap1 : wrap (terminal_col t + 1) = terminal_col t + 1)
      by (apply wrap_small; [done | lia]).
    assert (Haddr : terminal_buffer t
                    + 2 * wrap (terminal_col t + wrap (terminal_row t * 80))
                    = cell_address (terminal_buffer t) (terminal_row t)
                        (terminal_col t)).
    { unfold cell_address, VGA_WIDTH.
      rewrite (wrap_small size_bits size_bits_min (terminal_row t * 80)) by lia.
      rewrite wrap_small by (done || lia). lia. }
    rewrite Hwrap1, Haddr.
    set (t1 := Terminal (terminal_buffer t) (terminal_row t) (terminal_col t + 1)
                 (<[cell_address (terminal_buffer t) (terminal_row t)
                      (terminal_col t) := vga_entry (char_code c) color]>
                    (memory t))).
    destruct (IH t1) as (Hbuf & Hrow' & Hcol' & Hcells & Hframe);
      [done | done | cbn; lia | cbn; lia |].
    subst t1. cbn [terminal_buffer terminal_row terminal_col memory] in *.
    split_and!; [done | done | cbn [length]; lia | |].
    + intros [|i] c' Hi.
      * injection Hi as <-. rewrite Z.add_0_r.
        rewrite Hframe.
        -- apply lookup_insert_eq.
        -- intros i _. unfold cell_address, VGA_WIDTH. lia.
      * cbn in Hi. rewrite <- (Hcells i c' Hi). f_equal. f_equal. lia.
    + intros a Ha. rewrite Hframe.
      * apply lookup_insert_ne. intros <-.
        apply (Ha 0%nat); [cbn [length]; lia|]. f_equal. lia.
      * intros i Hi.
        replace (terminal_col t + 1 + Z.of_nat i)
          with (terminal_col t + Z.of_nat (S i)) by lia.
        apply Ha. cbn [length]. lia.
Qed.

(** X5: a text without newline that fits between the cursor and the end
    of its row is stored in the consecutive cells of that row, one character
    a cell: the cell holds the character in its low byte and the attribute
    given in its high byte.  No other address changes, the row stays and the
    column advances by the length of the text. *)
Theorem X5_terminalPut_within_row
    (s rest : list ascii) (color : Z) (t : terminal) :
  NUL ∉ s → newline ∉ s →
  0 ≤ terminal_row t < 25 → 0 ≤ terminal_col t →
  terminal_col t + Z.of_nat (length s) ≤ 80 →
  ∃ t',
    terminalPut size_bits (s ++ NUL :: rest) color t = Some t'
    ∧ terminal_buffer t' = terminal_buffer t
    ∧ terminal_row t' = terminal_row t
    ∧ terminal_col t' = terminal_col t + Z.of_nat (length s)
    ∧ (∀ (i : nat) c, s !! i = Some c →
         memory t' !! cell_address (terminal_buffer t) (terminal_row t)
                        (terminal_col t + Z.of_nat i)
         = Some (vga_entry (char_code c) color))
    ∧ (0 ≤ color < 256 →
       ∀ (i : nat) c, s !! i = Some c →
         memory t' !! cell_address (terminal_buffer t) (terminal_row t)
                        (terminal_col t + Z.of_nat i)
         = Some (char_code c + 256 * color))
    ∧ (∀ a, (∀ i : nat, (i < length s)%nat →
               a ≠ cell_address (terminal_buffer t) (terminal_row t)
                     (terminal_col t + Z.of_nat i)) →
            memory t' !! a = memory t !! a).
Proof.
  intros Hs Hnl Hrow Hcol Hfit. eexists.
  split; [by apply terminalPut_foldl|].
  destruct (foldl_step_line s color t Hnl Hrow Hcol Hfit)
    as (Hbuf & Hrow' & Hcol' & Hcells & Hframe).
  split_and!; [exact Hbuf | exact Hrow' | exact Hcol' | exact Hcells |
               | exact Hframe].
  intros Hcolor i c Hi. rewrite (Hcells i c Hi).
  by rewrite vga_entry_bytes by (apply char_code_range || done).
Qed.

(** X6: a newline forgets the column.  After a text whose last newline is
    followed by the characters [s2] the column is the length of [s2]
    (reduced to [size_t]), whatever the column was before; a text that ends
    with a newline leaves the column at zero. *)
Theorem X6_terminalPut_column_after_newline
    (s1 s2 rest : list ascii) (color : Z) (t : terminal) :
  NUL ∉ s1 → NUL ∉ s2 → newline ∉ s2 →
  ∃ t',
    terminalPut size_bits ((s1 ++ newline :: s2) ++ NUL :: rest) color t = Some t'
    ∧ terminal_col t' = wrap (Z.of_nat (length s2))
    ∧ (s2 = [] → terminal_col t' = 0).
Proof.
  intros Hs1 Hs2 Hnl. eexists. split.
  - apply terminalPut_foldl. rewrite elem_of_app, elem_of_cons.
    intros [?|[?|?]]; done.
  - rewrite foldl_app. cbn [foldl]. rewrite step_newline.
    rewrite foldl_step_spec. cbn [terminal_row terminal_col].
    rewrite cursor_after_col; [|done|done|pose proof (size_modulus_pos size_bits size_bits_min); lia].
    split; [done|]. intros ->. cbn. apply wrap_small; [done | lia].
Qed.



(** ** initTerminal *)

Lemma initTerminal_row_frame y t a :
  0 ≤ y < 25 →
  (∀ x, 0 ≤ x < 80 → a ≠ cell_address (terminal_buffer t) y x) →
  memory (for_loop 0 VGA_WIDTH (λ x t,
            store_cell t (wrap (wrap (y * VGA_WIDTH) + x)) 3872) t) !! a
  = memory t !! a.
Proof.
  intros Hy Ha.
  apply (for_loop_invariant (λ (j : Z) t',
    terminal_buffer t' = terminal_buffer t ∧ memory t' !! a = memory t !! a)).
  - unfold VGA_WIDTH. lia.
  - done.
  - intros j s Hj [Hbuf Hmem]. unfold store_cell. cbn [terminal_buffer memory].
    split; [done|]. rewrite lookup_insert_ne; [done|].
    unfold VGA_WIDTH in *.
    rewrite (wrap_small size_bits size_bits_min (y * 80)) by lia.
    rewrite wrap_small by (done || lia).
    rewrite Hbuf. intros <-. apply (Ha j); [lia|].
    unfold cell_address, VGA_WIDTH. lia.
Qed.

(** [initTerminal] stores to the cells of the grid only. *)
Lemma initTerminal_frame t a :
  (∀ y x, 0 ≤ y < 25 → 0 ≤ x < 80 → a ≠ cell_address 753664 y x) →
  memory (initTerminal size_bits t) !! a = memory t !! a.
Proof.
  intros Ha. unfold initTerminal. rewrite blank_cell.
  apply (for_loop_invariant (λ (j : Z) t',
    terminal_buffer t' = 753664 ∧ memory t' !! a = memory t !! a)).
  - unfold VGA_HEIGHT. lia.
  - done.
  - intros j s Hj [Hbuf Hmem].
    destruct (initTerminal_row_spec size_bits j s) as (Hbuf' & _).
    split; [congruence|].
    rewrite initTerminal_row_frame; [done | unfold VGA_HEIGHT in Hj; lia |].
    rewrite Hbuf. intros x Hx. apply Ha; [unfold VGA_HEIGHT in Hj; lia | done].
Qed.

Lemma terminal_eq (t1 t2 : terminal) :
  terminal_buffer t1 = terminal_buffer t2 →
  terminal_row t1 = terminal_row t2 →
  terminal_col t1 = terminal_col t2 →
  memory t1 = memory t2 →
  t1 = t2.
Proof. destruct t1, t2. cbn. by intros -> -> -> ->. Qed.

(** An address is a cell of the grid at 0xB8000, or it is none. *)
Lemma grid_address_cases a :
  (∃ y x, 0 ≤ y < 25 ∧ 0 ≤ x < 80 ∧ a = cell_address 753664 y x)
  ∨ (∀ y x, 0 ≤ y < 25 → 0 ≤ x < 80 → a ≠ cell_address 753664 y x).
Proof.
  unfold cell_address, VGA_WIDTH.
  destruct (decide (753664 ≤ a < 753664 + 4000 ∧ (a - 753664) mod 2 = 0))
    as [[Hrange Heven]|Hout].
  - left. exists ((a - 753664) / 2 / 80), ((a - 753664) / 2 mod 80).
    pose proof (Z.div_mod (a - 753664) 2 ltac:(lia)).
    pose proof (Z.div_mod ((a - 753664) / 2) 80 ltac:(lia)).
    split; [|split].
    + split; [apply Z.div_pos; [apply Z.div_pos|]; lia|].
      apply Z.div_lt_upper_bound; [lia|]. apply Z.div_lt_upper_bound; lia.
    + apply Z.mod_pos_bound. lia.
    + lia.
  - right. intros y x Hy Hx ->. apply Hout. split; [lia|].
    replace (753664 + 2 * (y * 80 + x) - 753664) with ((y * 80 + x) * 2) by lia.
    apply Z_mod_mult.
Qed.

(** X8: [initTerminal] changes no memory outside the 2000 cells of the
    grid at 0xB8000, its result does not depend on the pointer it finds, and
    a second call changes nothing. *)
Theorem X8_initTerminal_frame_idempotent (t : terminal) :
  (∀ a, (∀ y x, 0 ≤ y < 25 → 0 ≤ x < 80 → a ≠ cell_address 753664 y x) →
        memory (initTerminal size_bits t) !! a = memory t !! a)
  ∧ (∀ p, initTerminal size_bits
            (Terminal p (terminal_row t) (terminal_col t) (memory t))
          = initTerminal size_bits t)
  ∧ initTerminal size_bits (initTerminal size_bits t) = initTerminal size_bits t.
Proof.
  split_and!.
  - intros a. apply initTerminal_frame.
  - intros p. reflexivity.
  - destruct (initTerminal_spec size_bits (initTerminal size_bits t))
      as (Hbuf2 & Hrow2 & Hcol2 & _).
    destruct (initTerminal_spec size_bits t) as (Hbuf1 & _).
    apply terminal_eq; [congruence | exact Hrow2 | exact Hcol2 |].
    apply map_eq. intros a.
    destruct (grid_address_cases a) as [(y & x & Hy & Hx & ->)|Hout].
    + by rewrite !initTerminal_cell by done.
    + exact (initTerminal_frame (initTerminal size_bits t) a Hout).
Qed.

(** ** write_hex *)

(** X9: with the cursor in the grid and eight columns left in its row,
    [write_hex] puts "0x" and the six low digits of the value, White on
    Black, into the next eight cells of the row and advances the column by
    eight; nothing else changes, and the indeterminate content of the local
    buffer does not show in the result. *)
Theorem X9_write_hex_cells (hex : Z) (stack : list ascii) (t : terminal) :
  0 ≤ hex < 4294967296 → length stack = 11%nat →
  0 ≤ terminal_row t < 25 → 0 ≤ terminal_col t → terminal_col t + 8 ≤ 80 →
  let text := "0"%char :: "x"%char :: spec_hex 6 hex in
  ∃ t',
    write_hex size_bits hex stack t = Some t'
    ∧ (∀ stack', length stack' = 11%nat →
                 write_hex size_bits hex stack' t = Some t')
    ∧ terminal_buffer t' = terminal_buffer t
    ∧ terminal_row t' = terminal_row t
    ∧ terminal_col t' = terminal_col t + 8
    ∧ (∀ (i : nat) c, text !! i = Some c →
         memory t' !! cell_address (terminal_buffer t) (terminal_row t)
                        (terminal_col t + Z.of_nat i)
         = Some (char_code c + 256 * 15))
    ∧ (∀ a, (∀ i : nat, (i < 8)%nat →
               a ≠ cell_address (terminal_buffer t) (terminal_row t)
                     (terminal_col t + Z.of_nat i)) →
            memory t' !! a = memory t !! a).
Proof.
  intros Hhex Hlen Hrow Hcol Hfit text.
  assert (Hlen8 : length text = 8%nat).
  { subst text. cbn [length]. by rewrite length_spec_hex. }
  assert (Hnl : newline ∉ text).
  { subst text. intros Hin.
    apply elem_of_cons in Hin as [Hin|Hin]; [discriminate Hin|].
    apply elem_of_cons in Hin as [Hin|Hin]; [discriminate Hin|].
    pose proof (spec_hex_all_hex 6 hex) as Hdigits.
    rewrite Forall_forall in Hdigits. apply Hdigits in Hin.
    unfold is_hex_digit in Hin. cbn in Hin.
    repeat (apply elem_of_cons in Hin as [Hin|Hin]; [discriminate Hin|]).
    by apply elem_of_nil in Hin. }
  destruct (foldl_step_line text 15 t)
    as (Hbuf & Hrow' & Hcol' & Hcells & Hframe); [done | done | done | lia |].
  exists (foldl (step 15) t text). split_and!.
  - by apply write_hex_spec.
  - intros stack' Hlen'. by apply write_hex_spec.
  - exact Hbuf.
  - exact Hrow'.
  - rewrite Hcol', Hlen8. lia.
  - intros i c Hi. rewrite (Hcells i c Hi).
    rewrite vga_entry_bytes; [done | apply char_code_range | lia].
  - intros a Ha. apply Hframe. intros i Hi. apply Ha. lia.
Qed.

End TerminalExtras.

Lemma X4_terminalPut_sequence_witness :
  terminalPut 32 (literal "some more text") 15 (boot_terminal ∅)
    ≫= terminalPut 32 (literal ", and more...") 15
  = terminalPut 32 (literal "some more text, and more...") 15 (boot_terminal ∅).
Proof.
  apply (X4_terminalPut_sequence 32
           (list_ascii_of_string "some more text") []
           (list_ascii_of_string ", and more...") [] [] 15 (boot_terminal ∅));
    apply (bool_decide_unpack _); vm_compute; exact I.
Defined.

Lemma X5_terminalPut_within_row_witness :
  ∃ t',
    terminalPut 32 (literal "WARNING") 14 (Terminal 753664 3 70 ∅) = Some t'
    ∧ terminal_col t' = 77
    ∧ memory t' !! cell_address 753664 3 70 = Some (87 + 256 * 14).
Proof.
  destruct (X5_terminalPut_within_row 32 ltac:(lia)
              (list_ascii_of_string "WARNING") [] 14 (Terminal 753664 3 70 ∅))
    as (t' & Hput & _ & _ & Hcol & _ & Hcells & _).
  - apply (bool_decide_unpack _). vm_compute. exact I.
  - apply (bool_decide_unpack _). vm_compute. exact I.
  - cbn. lia.
  - cbn. lia.
  - cbn. lia.
  - exists t'. split_and!; [exact Hput | exact Hcol |].
    apply (Hcells ltac:(lia) 0%nat "W"%char). reflexivity.
Defined.

Lemma X6_terminalPut_column_after_newline_witness :
  ∃ t',
    terminalPut 32 (literal ("Hello, world!" ++ LF)) 15 (Terminal 753664 2 11 ∅)
    = Some t'
    ∧ terminal_col t' = 0.
Proof.
  destruct (X6_terminalPut_column_after_newline 32 ltac:(lia)
              (list_ascii_of_string "Hello, world!") [] [] 15
              (Terminal 753664 2 11 ∅))
    as (t' & Hput & _ & Hcol).
  - apply (bool_decide_unpack _). vm_compute. exact I.
  - apply not_elem_of_nil.
  - apply not_elem_of_nil.
  - exists t'. split; [exact Hput | exact (Hcol eq_refl)].
Defined.


Lemma X8_initTerminal_frame_idempotent_witness :
  initTerminal 32 (initTerminal 32 (boot_terminal ∅))
  = initTerminal 32 (boot_terminal ∅).
Proof.
  destruct (X8_initTerminal_frame_idempotent 32 ltac:(lia) (boot_terminal ∅))
    as (_ & _ & Hidem).
  exact Hidem.
Defined.

Lemma X9_write_hex_cells_witness :
  ∃ t',
    write_hex 32 305419896 (replicate 11 "?"%char) (Terminal 753664 1 0 ∅)
    = Some t'
    ∧ terminal_col t' = 8.
Proof.
  destruct (X9_write_hex_cells 32 ltac:(lia) 305419896 (replicate 11 "?"%char)
              (Terminal 753664 1 0 ∅))
    as (t' & Hput & _ & _ & _ & Hcol & _);
    [lia | reflexivity | cbn; lia | cbn; lia | cbn; lia |].
  exists t'. split; [exact Hput | exact Hcol].
Defined.

(** ** The boot sequence *)

Section KernelProperties.
Variable size_bits : Z.
Hypothesis size_bits_min : 16 ≤ size_bits.
Variable printSegmentRegisters : terminal → option terminal.

Local Abbreviation wrap := (size_wrap size_bits).
Local Abbreviation step := (terminal_step size_bits).

(** A literal is a C string when its text holds no terminator. *)
Lemma terminalPut_literal (s : string) color t :
  NUL ∉ list_ascii_of_string s →
  terminalPut size_bits (literal s) color t
  = Some (foldl (step color) t (list_ascii_of_string s)).
Proof. intros Hs. by apply terminalPut_foldl. Qed.

(** A text without newline keeps the row. *)
Lemma foldl_step_same_line (s : list ascii) color t :
  "010"%char ∉ s →
  terminal_buffer (foldl (step color) t s) = terminal_buffer t
  ∧ terminal_row (foldl (step color) t s) = terminal_row t.
Proof.
  revert t. induction s as [|c s IH]; intros t Hs; [done|].
  apply not_elem_of_cons in Hs as [Hc Hs]. cbn [foldl].
  destruct (IH (step color t c) Hs) as [Hbuf Hrow].
  rewrite Hbuf, Hrow. by rewrite step_char by congruence.
Qed.

(** The cursor after a text that ends with its only newline. *)
Lemma one_line_buffer (s : list ascii) color t :
  "010"%char ∉ s →
  terminal_buffer (foldl (step color) t (s ++ ["010"%char])) = terminal_buffer t.
Proof.
  intros Hs. rewrite foldl_app. cbn [foldl]. rewrite step_newline.
  cbn [terminal_buffer]. by apply foldl_step_same_line.
Qed.

Lemma one_line_row (s : list ascii) color t :
  "010"%char ∉ s →
  terminal_row (foldl (step color) t (s ++ ["010"%char]))
  = wrap (terminal_row t + 1).
Proof.
  intros Hs. rewrite foldl_app. cbn [foldl]. rewrite step_newline.
  cbn [terminal_row]. do 2 f_equal. by apply foldl_step_same_line.
Qed.

Lemma one_line_col (s : list ascii) color t :
  "010"%char ∉ s →
  terminal_col (foldl (step color) t (s ++ ["010"%char])) = 0.
Proof. intros Hs. rewrite foldl_app. cbn [foldl]. by rewrite step_newline. Qed.

Lemma option_bind_Some {A B} (f : A → option B) (x : A) : Some x ≫= f = f x.
Proof. reflexivity. Qed.

(** The state [kernelMain] returns, from the one the register dump left. *)
Lemma kernelMain_foldl (t t1 : terminal) :
  initKernel size_bits printSegmentRegisters t = Some t1 →
  kernelMain size_bits printSegmentRegisters t
  = Some (foldl (step 14)
            (foldl (step 4)
               (foldl (step 15)
                  (foldl (step 15)
                     (foldl (step 15) t1
                        (list_ascii_of_string "Hello, world!" ++ ["010"%char]))
                     (list_ascii_of_string "some more text"))
                  (list_ascii_of_string ", and more..." ++ ["010"%char]))
               (list_ascii_of_string "NO MORE INFO" ++ ["010"%char]))
            (list_ascii_of_string "WARNING" ++ ["010"%char])).
Proof.
  intros Hinit.
  change (list_ascii_of_string "Hello, world!" ++ ["010"%char])
    with (list_ascii_of_string ("Hello, world!" ++ LF)).
  change (list_ascii_of_string ", and more..." ++ ["010"%char])
    with (list_ascii_of_string (", and more..." ++ LF)).
  change (list_ascii_of_string "NO MORE INFO" ++ ["010"%char])
    with (list_ascii_of_string ("NO MORE INFO" ++ LF)).
  change (list_ascii_of_string "WARNING" ++ ["010"%char])
    with (list_ascii_of_string ("WARNING" ++ LF)).
  unfold kernelMain. rewrite Hinit, option_bind_Some.
  unfold write, kerr, kwarn.
  do 4 (rewrite terminalPut_literal
          by (apply (bool_decide_unpack _); vm_compute; exact I);
        rewrite option_bind_Some).
  by apply terminalPut_literal, (bool_decide_unpack _).
Qed.

(** X10: the boot sequence.  [initKernel] hands the register dump a
    terminal bound to 0xB8000 with the cursor at column 0 of the row below
    the one it found.  If the dump returns, [kernelMain] returns as well: its
    five messages leave the pointer alone and end with the cursor at column
    0, four rows (as [size_t]) below the row where the dump ended.  If the
    dump has no result, neither has [kernelMain]. *)
Theorem X10_kernelMain_cursor (t : terminal) :
  (∃ t0, initKernel size_bits printSegmentRegisters t = printSegmentRegisters t0
         ∧ terminal_buffer t0 = 753664
         ∧ terminal_row t0 = wrap (terminal_row t + 1)
         ∧ terminal_col t0 = 0)
  ∧ (∀ t1, initKernel size_bits printSegmentRegisters t = Some t1 →
       ∃ t2, kernelMain size_bits printSegmentRegisters t = Some t2
             ∧ terminal_buffer t2 = terminal_buffer t1
             ∧ terminal_row t2 = wrap (terminal_row t1 + 4)
             ∧ terminal_col t2 = 0)
  ∧ (initKernel size_bits printSegmentRegisters t = None →
     kernelMain size_bits printSegmentRegisters t = None).
Proof.
  assert (Hregisters : "010"%char ∉ list_ascii_of_string "registers: ")
    by (apply (bool_decide_unpack _); vm_compute; exact I).
  assert (Hhello : "010"%char ∉ list_ascii_of_string "Hello, world!")
    by (apply (bool_decide_unpack _); vm_compute; exact I).
  assert (Hsome : "010"%char ∉ list_ascii_of_string "some more text")
    by (apply (bool_decide_unpack _); vm_compute; exact I).
  assert (Hmore : "010"%char ∉ list_ascii_of_string ", and more...")
    by (apply (bool_decide_unpack _); vm_compute; exact I).
  assert (Hinfo : "010"%char ∉ list_ascii_of_string "NO MORE INFO")
    by (apply (bool_decide_unpack _); vm_compute; exact I).
  assert (Hwarning : "010"%char ∉ list_ascii_of_string "WARNING")
    by (apply (bool_decide_unpack _); vm_compute; exact I).
  split_and!.
  - unfold initKernel, write.
    rewrite terminalPut_literal
      by (apply (bool_decide_unpack _); vm_compute; exact I).
    rewrite option_bind_Some.
    change (list_ascii_of_string ("registers: " ++ LF))
      with (list_ascii_of_string "registers: " ++ ["010"%char]).
    eexists. split; [reflexivity|].
    destruct (initTerminal_spec size_bits t) as (Hbuf & Hrow & _ & _).
    split_and!.
    + rewrite (one_line_buffer _ _ _ Hregisters). exact Hbuf.
    + rewrite (one_line_row _ _ _ Hregisters). by rewrite Hrow.
    + apply (one_line_col _ _ _ Hregisters).
  - intros t1 Hinit. rewrite (kernelMain_foldl t t1 Hinit).
    eexists. split; [reflexivity|].
    split_and!.
    + rewrite !(one_line_buffer _ _ _ Hwarning), !(one_line_buffer _ _ _ Hinfo),
        !(one_line_buffer _ _ _ Hmore).
      rewrite (proj1 (foldl_step_same_line _ _ _ Hsome)).
      apply (one_line_buffer _ _ _ Hhello).
    + rewrite (one_line_row _ _ _ Hwarning), (one_line_row _ _ _ Hinfo),
        (one_line_row _ _ _ Hmore).
      rewrite (proj2 (foldl_step_same_line _ _ _ Hsome)).
      rewrite (one_line_row _ _ _ Hhello).
      repeat (rewrite wrap_wrap_add, <- ?Z.add_assoc). f_equal.
    + apply (one_line_col _ _ _ Hwarning).
  - intros Hinit. unfold kernelMain. by rewrite Hinit.
Qed.

End KernelProperties.

(** ** align_up *)

(** The mask [~(alignment - 1)] keeps the multiples of a power of two. *)
Lemma land_align_mask (size_bits k y : Z) :
  0 ≤ k → 0 ≤ size_bits → 0 ≤ y < 2 ^ size_bits →
  Z.land y (size_wrap size_bits (Z.lnot (2 ^ k - 1))) = 2 ^ k * (y / 2 ^ k).
Proof.
  intros Hk Hbits Hy. unfold size_wrap.
  rewrite <- (Z.land_ones _ size_bits) by done.
  rewrite (Z.land_comm (Z.lnot _)), Z.land_assoc.
  rewrite (Z.land_ones y) by done. rewrite (Z.mod_small y) by done.
  replace (2 ^ k - 1) with (Z.ones k) by (rewrite Z.ones_equiv; lia).
  rewrite <- Z.ldiff_land, Z.ldiff_ones_r by done.
  rewrite Z.shiftl_mul_pow2, Z.shiftr_div_pow2 by done. lia.
Qed.

(** X11: for an alignment that is a power of two and a value [x] whose
    rounding fits [size_t], [align_up] yields the least multiple of the
    alignment that is not below [x], and [x] itself when [x] is aligned.  A
    value within [alignment - 1] of the top of [size_t] wraps and yields
    0. *)
Theorem X11_align_up_power_of_two (size_bits k x : Z) :
  0 ≤ k < size_bits → 0 ≤ x < 2 ^ size_bits →
  let a := 2 ^ k in
  (x + a - 1 < 2 ^ size_bits →
     align_up size_bits x a mod a = 0
     ∧ x ≤ align_up size_bits x a < x + a
     ∧ (∀ m, m mod a = 0 → x ≤ m → align_up size_bits x a ≤ m)
     ∧ (x mod a = 0 → align_up size_bits x a = x))
  ∧ (2 ^ size_bits ≤ x + a - 1 → align_up size_bits x a = 0).
Proof.
  intros Hk Hx a.
  assert (Ha : 0 < a) by (apply Z.pow_pos_nonneg; lia).
  assert (Hle : a ≤ 2 ^ size_bits) by (apply Z.pow_le_mono_r; lia).
  split.
  - intros Hfit. unfold align_up.
    assert (Hwrap : size_wrap size_bits (x + a - 1) = x + a - 1)
      by (apply Z.mod_small; lia).
    rewrite Hwrap. clear Hwrap. subst a. rewrite land_align_mask by lia.
    set (a := 2 ^ k) in *.
    pose proof (Z.div_mod (x + a - 1) a ltac:(lia)) as Hdiv.
    pose proof (Z.mod_pos_bound (x + a - 1) a Ha) as Hrem.
    split_and!.
    + rewrite Z.mul_comm. apply Z_mod_mult.
    + lia.
    + lia.
    + intros m Hm Hxm.
      pose proof (Z.div_mod m a ltac:(lia)) as Hm'. rewrite Hm in Hm'.
      set (q := (x + a - 1) / a) in *. set (p := m / a) in *.
      assert (q < p + 1) by nia. nia.
    + intros Hal.
      pose proof (Z.div_mod x a ltac:(lia)) as Hx'. rewrite Hal in Hx'.
      assert ((x + a - 1) / a = x / a); [|lia].
      symmetry. apply (Z.div_unique _ _ _ (a - 1)); lia.
  - intros Hover. unfold align_up.
    assert (Hwrap : size_wrap size_bits (x + a - 1) = x + a - 1 - 2 ^ size_bits).
    { unfold size_wrap. symmetry. apply (Z.mod_unique _ _ 1); lia. }
    rewrite Hwrap. subst a. rewrite land_align_mask by lia.
    rewrite Z.div_small by lia. lia.
Qed.

Lemma X11_align_up_power_of_two_witness :
  align_up 32 19 MALLOC_SIZE_ALIGN = 32
  ∧ align_up 32 4294967295 MALLOC_SIZE_ALIGN = 0.
Proof.
  destruct (X11_align_up_power_of_two 32 4 19) as [Hfit _]; [lia | lia |].
  destruct (X11_align_up_power_of_two 32 4 4294967295) as [_ Hover];
    [lia | lia |].
  split; [|apply Hover; lia].
  destruct Hfit as (_ & _ & Hleast & _); [lia|].
  reflexivity.
Defined.

(** ** vga_entry *)

(** X12: for a character byte and an attribute byte the cell is
    [uc + 256 * color]: it fits sixteen bits, the conversion to [uint16_t]
    loses nothing, and two cells are equal only if their characters and
    their attributes are. *)
Theorem X12_vga_entry_layout (uc color uc' color' : Z) :
  0 ≤ uc < 256 → 0 ≤ color < 256 → 0 ≤ uc' < 256 → 0 ≤ color' < 256 →
  vga_entry uc color = uc + 256 * color
  ∧ 0 ≤ vga_entry uc color < 65536
  ∧ Z.land (vga_entry uc color) 255 = uc
  ∧ Z.shiftr (vga_entry uc color) 8 = color
  ∧ (vga_entry uc color = vga_entry uc' color' → uc = uc' ∧ color = color').
Proof.
  intros Huc Hcolor Huc' Hcolor'.
  rewrite !vga_entry_bytes by done.
  split_and!; [done | lia | lia | | | lia].
  - change 255 with (Z.ones 8). rewrite Z.land_ones by lia.
    change (2 ^ 8) with 256.
    rewrite Z.mul_comm, Z.mod_add by lia. apply Z.mod_small. lia.
  - rewrite Z.shiftr_div_pow2 by lia. change (2 ^ 8) with 256.
    rewrite Z.mul_comm, Z.div_add by lia. rewrite Z.div_small by lia. lia.
Qed.

Lemma X12_vga_entry_layout_witness :
  vga_entry 65 4 = 65 + 256 * 4 ∧ Z.shiftr (vga_entry 65 4) 8 = 4.
Proof.
  destruct (X12_vga_entry_layout 65 4 66 14) as (Hcell & _ & _ & Hattr & _);
    [lia | lia | lia | lia |].
  split; [exact Hcell | exact Hattr].
Defined.

(** ** The boot sequence on a 32-bit target, with a dump that prints
    nothing *)

Lemma X10_kernelMain_cursor_witness :
  ∃ t2, kernelMain 32 Some (boot_terminal ∅) = Some t2
        ∧ terminal_buffer t2 = 753664
        ∧ terminal_col t2 = 0.
Proof.
  destruct (X10_kernelMain_cursor 32 Some (boot_terminal ∅))
    as ((t0 & Hinit & Hbuf0 & _ & _) & Hmain & _).
  destruct (Hmain t0 Hinit) as (t2 & Hrun & Hbuf & _ & Hcol).
  exists t2. split_and!; [exact Hrun | | exact Hcol].
  by rewrite Hbuf.
Defined.
